(** * Serial-via-Ethernet: the RFC2217 frame codec and the slot supervisor

  A shallow embedding of [pi/serial_proxy.py] (class [RFC2217Proxy]) and of
  [pi/portal_v2.py] (classes [SlotState] and [Portal], and the hotplug
  branch of [RequestHandler.do_POST]), with the properties the
  specification states about them.

  Conventions.
  - Python [int] is [Z]; an index into a buffer is a [nat].
  - A [bytes] value is a [list Z] whose elements lie in [0, 256).
  - An exception that the source catches is an [option] that the catching
    site matches on; the handler's effect is written at that site.
  - The operating system (process table, TCP ports, the child that is
    spawned) answers through a record of observations, see [World]. *)

From Stdlib Require Import ZArith QArith.
From stdpp Require Import base option list strings pretty gmap.

Local Close Scope Q_scope.
Local Open Scope Z_scope.

(** ** Python built-ins used by the two files *)

Module Py.

Definition is_byte (b : Z) : bool := (0 <=? b) && (b <? 256).

(** [bytes([...])]: raises [ValueError] unless every item is in range(256). *)
Definition bytes_of (l : list Z) : option (list Z) :=
  if forallb is_byte l then Some l else None.

(** [data[i]] for an index the caller has checked to be in range. *)
Definition byte_at (data : list Z) (i : nat) : Z := nth i data 0.

(** [data[a:b]]; empty when [b <= a]. *)
Definition slice (data : list Z) (a b : nat) : list Z :=
  take (b - a) (drop a data).

(** [int.from_bytes(l, 'big')]. *)
Definition int_from_bytes_big (l : list Z) : Z :=
  fold_left (fun acc b => acc * 256 + b) l 0.

(** [n.to_bytes(4, 'big')]: raises [OverflowError] outside [0, 2^32). *)
Definition int_to_bytes4_big (n : Z) : option (list Z) :=
  if (0 <=? n) && (n <? 2 ^ 32)
  then Some [ (n / 2 ^ 24) mod 256; (n / 2 ^ 16) mod 256;
              (n / 2 ^ 8) mod 256; n mod 256 ]
  else None.

(** The scan of [data.find(bytes([x, y]), start)] over the bytes from
    position [pos] on. *)
Fixpoint find_pair (x y : Z) (l : list Z) (pos : nat) : option nat :=
  match l with
  | a :: tl =>
      match tl with
      | b :: _ =>
          if (a =? x) && (b =? y) then Some pos
          else find_pair x y tl (S pos)
      | [] => None
      end
  | [] => None
  end.

(** [data.find(bytes([x, y]), start)]; [None] stands for the result -1. *)
Definition find (data : list Z) (x y : Z) (start : nat) : option nat :=
  find_pair x y (drop start data) start.

(** [int(q)] on a float: truncation towards zero. *)
Definition int_of_float (q : Q) : Z := Z.quot (Qnum q) (Z.pos (Qden q)).

(** [d.get(key, default)] on a dict literal whose keys are numbers. *)
Fixpoint dict_get_num {V} (d : list (Q * V)) (key : Q) (default : V) : V :=
  match d with
  | (k, v) :: tl => if Qeq_bool k key then v else dict_get_num tl key default
  | [] => default
  end.

(** [d.get(key, default)] on a dict literal whose keys are strings. *)
Fixpoint dict_get_str {V} (d : list (string * V)) (key : string) (default : V) : V :=
  match d with
  | (k, v) :: tl => if String.eqb k key then v else dict_get_str tl key default
  | [] => default
  end.

End Py.

(** ** [pi/serial_proxy.py] *)

Module SerialProxy.
Import Py.

(** RFC2217 constants *)
Definition IAC : Z := 255.
Definition DONT : Z := 254.
Definition DO : Z := 253.
Definition WONT : Z := 252.
Definition WILL : Z := 251.
Definition SB : Z := 250.
Definition SE : Z := 240.
Definition COM_PORT_OPTION : Z := 44.

(** RFC2217 subnegotiation commands *)
Definition SET_BAUDRATE : Z := 1.
Definition SET_DATASIZE : Z := 2.
Definition SET_PARITY : Z := 3.
Definition SET_STOPSIZE : Z := 4.
Definition SET_CONTROL : Z := 5.
Definition SET_LINESTATE_MASK : Z := 10.
Definition SET_MODEMSTATE_MASK : Z := 11.

(** The settings of the [serial.Serial] object the proxy owns, and the
    baudrates the open port takes.  pyserial's [baudrate] setter stores
    the value and then reconfigures the open port; the reconfiguration
    raises for a rate the driver cannot set (a value of 2^31 or more, for
    one), and [accepts_baudrate] says for which rates it does not.  The
    other setters are taken to accept every value the handler hands
    them. *)
Record Serial := mkSerial {
  baudrate : Z;
  bytesize : Z;
  parity : string;
  stopbits : Q;
  dtr : bool;
  rts : bool;
  accepts_baudrate : Z -> bool
}.

(** What [self.logger.log] is called with. *)
Inductive LogEntry :=
| LogBaudrate (b : Z)
| LogDatasize (d : Z)
| LogParity (p : string)
| LogStopbits (s : Q)
| LogDTR (on : bool)
| LogRTS (on : bool)
| LogError.

(** The part of [RFC2217Proxy] that [handle_rfc2217] reads and writes:
    the serial settings, whether [client_socket] is set, the messages
    handed to [client_socket.send] so far, and the log lines so far. *)
Record Proxy := mkProxy {
  serial : Serial;
  client_socket : bool;
  sent : list (list Z);
  logged : list LogEntry
}.

Definition with_serial (f : Serial -> Serial) (p : Proxy) : Proxy :=
  mkProxy (f (serial p)) (client_socket p) (sent p) (logged p).

Definition log (e : LogEntry) (p : Proxy) : Proxy :=
  mkProxy (serial p) (client_socket p) (sent p) (logged p ++ [e]).

Definition send (msg : list Z) (p : Proxy) : Proxy :=
  mkProxy (serial p) (client_socket p) (sent p ++ [msg]) (logged p).

Definition set_baudrate (b : Z) (s : Serial) : Serial :=
  mkSerial b (bytesize s) (parity s) (stopbits s) (dtr s) (rts s)
           (accepts_baudrate s).
Definition set_bytesize (d : Z) (s : Serial) : Serial :=
  mkSerial (baudrate s) d (parity s) (stopbits s) (dtr s) (rts s)
           (accepts_baudrate s).
Definition set_parity (x : string) (s : Serial) : Serial :=
  mkSerial (baudrate s) (bytesize s) x (stopbits s) (dtr s) (rts s)
           (accepts_baudrate s).
Definition set_stopbits (x : Q) (s : Serial) : Serial :=
  mkSerial (baudrate s) (bytesize s) (parity s) x (dtr s) (rts s)
           (accepts_baudrate s).
Definition set_dtr (x : bool) (s : Serial) : Serial :=
  mkSerial (baudrate s) (bytesize s) (parity s) (stopbits s) x (rts s)
           (accepts_baudrate s).
Definition set_rts (x : bool) (s : Serial) : Serial :=
  mkSerial (baudrate s) (bytesize s) (parity s) (stopbits s) (dtr s) x
           (accepts_baudrate s).

(** [_send_telnet]: the bare [except] swallows a failed [bytes(...)]. *)
Definition _send_telnet (cmd opt : Z) (p : Proxy) : Proxy :=
  if client_socket p then
    match bytes_of [IAC; cmd; opt] with
    | Some msg => send msg p
    | None => p
    end
  else p.

(** [_send_com_port_option]: the bare [except] swallows the [ValueError]
    of [bytes([IAC, SB, COM_PORT_OPTION, subcmd])] when [subcmd > 255]. *)
Definition _send_com_port_option (subcmd : Z) (data : list Z) (p : Proxy) : Proxy :=
  if client_socket p then
    match bytes_of [IAC; SB; COM_PORT_OPTION; subcmd] with
    | Some hd => send (hd ++ data ++ [IAC; SE]) p
    | None => p
    end
  else p.

Definition parity_map : list (Q * string) :=
  [((1#1)%Q, "N"); ((2#1)%Q, "O"); ((3#1)%Q, "E"); ((4#1)%Q, "M"); ((5#1)%Q, "S")]%string.
Definition parity_rmap : list (string * Z) :=
  [("N", 1); ("O", 2); ("E", 3); ("M", 4); ("S", 5)]%string.
Definition stopbits_map : list (Q * Q) :=
  [((1#1)%Q, (1#1)%Q); ((2#1)%Q, (2#1)%Q); ((3#1)%Q, (3#2)%Q)].
Definition stopbits_rmap : list (Q * Z) :=
  [((1#1)%Q, 1); ((3#2)%Q, 3); ((2#1)%Q, 2)].

(** [data if data else bytes([0])] *)
Definition or_zero (data : list Z) : list Z :=
  match data with [] => [0] | _ => data end.

(** [_handle_com_port_option].  An exception inside the [try] (the
    baudrate setter raising on the open port, a failed [to_bytes] or
    [bytes(...)]) ends the body and logs an error.  When the baudrate
    setter raises, the value is already stored, "Baudrate changed" is not
    logged and no reply is sent. *)
Definition _handle_com_port_option (subcmd : Z) (data : list Z) (p : Proxy) : Proxy :=
  let resp_cmd := subcmd + 100 in
  if (subcmd =? SET_BAUDRATE) && (4 <=? length data)%nat then
    let baud := int_from_bytes_big (take 4 data) in
    if (0 <? baud) && negb (accepts_baudrate (serial p) baud) then
      log LogError (with_serial (set_baudrate baud) p)
    else
      let p1 := if 0 <? baud
                then log (LogBaudrate baud) (with_serial (set_baudrate baud) p)
                else p in
      match int_to_bytes4_big (baudrate (serial p1)) with
      | Some bs => _send_com_port_option resp_cmd bs p1
      | None => log LogError p1
      end
  else if (subcmd =? SET_DATASIZE) && (1 <=? length data)%nat then
    let datasize := byte_at data 0 in
    let p1 := if (5 <=? datasize) && (datasize <=? 8)
              then log (LogDatasize datasize) (with_serial (set_bytesize datasize) p)
              else p in
    match bytes_of [bytesize (serial p1)] with
    | Some bs => _send_com_port_option resp_cmd bs p1
    | None => log LogError p1
    end
  else if (subcmd =? SET_PARITY) && (1 <=? length data)%nat then
    let par := dict_get_num parity_map (inject_Z (byte_at data 0)) "N"%string in
    let p1 := log (LogParity par) (with_serial (set_parity par) p) in
    match bytes_of [dict_get_str parity_rmap (parity (serial p1)) 1] with
    | Some bs => _send_com_port_option resp_cmd bs p1
    | None => log LogError p1
    end
  else if (subcmd =? SET_STOPSIZE) && (1 <=? length data)%nat then
    let stop := dict_get_num stopbits_map (inject_Z (byte_at data 0)) (1#1)%Q in
    let p1 := log (LogStopbits stop) (with_serial (set_stopbits stop) p) in
    match bytes_of [dict_get_num stopbits_rmap
                      (inject_Z (int_of_float (stopbits (serial p1)))) 1] with
    | Some bs => _send_com_port_option resp_cmd bs p1
    | None => log LogError p1
    end
  else if (subcmd =? SET_CONTROL) && (1 <=? length data)%nat then
    let control := byte_at data 0 in
    if control =? 8 then
      _send_com_port_option resp_cmd [8] (log (LogDTR true) (with_serial (set_dtr true) p))
    else if control =? 9 then
      _send_com_port_option resp_cmd [9] (log (LogDTR false) (with_serial (set_dtr false) p))
    else if control =? 11 then
      _send_com_port_option resp_cmd [11] (log (LogRTS true) (with_serial (set_rts true) p))
    else if control =? 12 then
      _send_com_port_option resp_cmd [12] (log (LogRTS false) (with_serial (set_rts false) p))
    else
      _send_com_port_option resp_cmd [control] p
  else if subcmd =? SET_LINESTATE_MASK then
    _send_com_port_option resp_cmd (or_zero data) p
  else if subcmd =? SET_MODEMSTATE_MASK then
    _send_com_port_option resp_cmd (or_zero data) p
  else
    _send_com_port_option resp_cmd (or_zero data) p.

(** [cmd in (DO, DONT, WILL, WONT)] *)
Definition is_negotiation (cmd : Z) : bool :=
  (cmd =? DO) || (cmd =? DONT) || (cmd =? WILL) || (cmd =? WONT).

(** The loop variables of [handle_rfc2217] together with the proxy. *)
Record Cursor := mkCursor {
  idx : nat;
  output : list Z;
  proxy : Proxy
}.

(** One pass through the body of [while i < len(data)]. *)
Definition loop_body (data : list Z) (c : Cursor) : Cursor :=
  let i := idx c in
  if (byte_at data i =? IAC) && (i + 1 <? length data)%nat then
    let cmd := byte_at data (i + 1) in
    if cmd =? IAC then
      mkCursor (i + 2) (output c ++ [IAC]) (proxy c)
    else if (cmd =? SB) && (i + 2 <? length data)%nat then
      if byte_at data (i + 2) =? COM_PORT_OPTION then
        match find data IAC SE (i + 3) with
        | Some se_idx =>
            let subcmd := if (i + 3 <? se_idx)%nat then byte_at data (i + 3) else 0 in
            let subdata := slice data (i + 4) se_idx in
            mkCursor (se_idx + 2) (output c)
                     (_handle_com_port_option subcmd subdata (proxy c))
        | None => mkCursor (i + 2) (output c) (proxy c)
        end
      else mkCursor (i + 2) (output c) (proxy c)
    else if is_negotiation cmd then
      if (i + 2 <? length data)%nat then
        let opt := byte_at data (i + 2) in
        let p' :=
          if (cmd =? DO) && (opt =? COM_PORT_OPTION)
          then _send_telnet WILL COM_PORT_OPTION (proxy c)
          else if (cmd =? WILL) && (opt =? COM_PORT_OPTION)
          then _send_telnet DO COM_PORT_OPTION (proxy c)
          else proxy c in
        mkCursor (i + 3) (output c) p'
      else mkCursor (i + 2) (output c) (proxy c)
    else mkCursor (i + 2) (output c) (proxy c)
  else
    mkCursor (i + 1) (output c ++ [byte_at data i]) (proxy c).

(** The [while] loop, with a bound on the number of passes; [None] when
    the bound is used up before [i] reaches [len(data)]. *)
Fixpoint handle_loop (fuel : nat) (data : list Z) (c : Cursor) : option Cursor :=
  if (length data <=? idx c)%nat then Some c
  else match fuel with
       | O => None
       | S fuel' => handle_loop fuel' data (loop_body data c)
       end.

(** [handle_rfc2217]: the application data returned to [run] and the
    proxy after the control commands have been carried out. *)
Definition handle_rfc2217 (data : list Z) (p : Proxy) : option (list Z * Proxy) :=
  match handle_loop (length data) data (mkCursor 0 [] p) with
  | Some c => Some (output c, proxy c)
  | None => None
  end.

(** What [serial.Serial(device, baudrate=...)] starts with, on a port
    that takes every rate below 2^31, and a proxy with a client
    attached. *)
Definition serial0 : Serial :=
  mkSerial 115200 8 "N" (1#1)%Q true true (fun b => b <? 2 ^ 31).
Definition proxy0 : Proxy := mkProxy serial0 true [] [].

End SerialProxy.

(** ** The codec fed in several reads, and the specification's vocabulary *)

Module Codec.
Import Py SerialProxy.

(** [n] passes through the loop body, stopping early once [i] has
    reached [len(data)]: the cursors the one-call parse goes through. *)
Fixpoint run_steps (n : nat) (data : list Z) (c : Cursor) : Cursor :=
  match n with
  | O => c
  | S n' =>
      if (length data <=? idx c)%nat then c
      else run_steps n' data (loop_body data c)
  end.

(** Two successive reads, as [run] performs them: the second call works
    on the proxy the first one left; the application data of both calls
    is written to the serial port in order. *)
Definition feed_two (d1 d2 : list Z) (p : Proxy) : option (list Z * Proxy) :=
  match handle_rfc2217 d1 p with
  | Some (o1, p1) =>
      match handle_rfc2217 d2 p1 with
      | Some (o2, p2) => Some (o1 ++ o2, p2)
      | None => None
      end
  | None => None
  end.

(** The items of a valid stream in the sense of the specification. *)
Inductive Token :=
| Data (b : Z)
| EscapedIAC
| Negotiation (cmd opt : Z)
| ComPort (subcmd : Z) (payload : list Z).

(** Specification side: a payload with every [0xFF] doubled. *)
Fixpoint escape_iac (payload : list Z) : list Z :=
  match payload with
  | [] => []
  | b :: tl => if b =? IAC then IAC :: IAC :: escape_iac tl else b :: escape_iac tl
  end.

Definition encode_token (t : Token) : list Z :=
  match t with
  | Data b => [b]
  | EscapedIAC => [IAC; IAC]
  | Negotiation cmd opt => [IAC; cmd; opt]
  | ComPort subcmd payload =>
      [IAC; SB; COM_PORT_OPTION; subcmd] ++ escape_iac payload ++ [IAC; SE]
  end.

Definition encode (ts : list Token) : list Z := concat (map encode_token ts).

(** Specification side: the reply frame with its payload escape-doubled. *)
Definition escaped_reply (resp_cmd : Z) (payload : list Z) : list Z :=
  [IAC; SB; COM_PORT_OPTION; resp_cmd] ++ escape_iac payload ++ [IAC; SE].

(** The reply frame as [_send_com_port_option] builds it. *)
Definition reply_frame (resp_cmd : Z) (payload : list Z) : list Z :=
  [IAC; SB; COM_PORT_OPTION; resp_cmd] ++ payload ++ [IAC; SE].

(** A COM-Port-Option subnegotiation as the client puts it on the wire. *)
Definition request_frame (subcmd : Z) (payload : list Z) : list Z :=
  [IAC; SB; COM_PORT_OPTION; subcmd] ++ payload ++ [IAC; SE].

(** A cursor moved [k] positions to the right, and one with [o] put in
    front of its output. *)
Definition shift_cursor (k : nat) (c : Cursor) : Cursor :=
  mkCursor (k + idx c) (output c) (proxy c).
Definition prepend_output (o : list Z) (c : Cursor) : Cursor :=
  mkCursor (idx c) (o ++ output c) (proxy c).

(** The payload length below which the branch of a subcommand that
    changes a setting is not taken. *)
Definition required_length (subcmd : Z) : nat :=
  if subcmd =? SET_BAUDRATE then 4%nat
  else if (subcmd =? SET_DATASIZE) || (subcmd =? SET_PARITY)
          || (subcmd =? SET_STOPSIZE) || (subcmd =? SET_CONTROL) then 1%nat
  else 0%nat.

End Codec.

(** ** [pi/portal_v2.py] *)

Module PortalV2.

(** [SlotState]; the per-slot lock is not modelled: calls are taken one
    at a time, as the lock makes them. *)
Record SlotState := mkSlot {
  label : string;
  slot_key : string;
  tcp_port : Z;
  running : bool;
  pid : option Z;
  devnode : option string;
  last_gen : Z;
  last_error : option string
}.

(** [SlotState.__init__] *)
Definition new_slot (label slot_key : string) (tcp_port : Z) : SlotState :=
  mkSlot label slot_key tcp_port false None None 0 None.

(** [Portal]: the dict [slots] keyed by slot_key, and [host_ip]. *)
Record Portal := mkPortal {
  slots : gmap string SlotState;
  host_ip : string
}.

(** What the operating system answers during one call. *)
Record World := mkWorld {
  is_process_alive : Z -> bool;
  is_port_listening : Z -> bool;
  proxy_executable : option string;
  device_ready : string -> bool;
  popen : positive + string;
  poll : option Z;
  port_comes_up : bool
}.

(** The result dicts of [start] and [stop]; an absent key is [None]. *)
Record Response := mkResponse {
  success : bool;
  r_running : option bool;
  restarted : option bool;
  port : option Z;
  r_pid : option Z;
  error : option string;
  r_slot_key : option string
}.

(** Truth value of an [Optional[int]]. *)
Definition pid_truthy (p : option Z) : bool :=
  match p with
  | Some n => negb (n =? 0)
  | None => false
  end.

Definition pid_value (p : option Z) : Z := default 0 p.

(** [_start_proxy]: [inl pid] stands for [(True, str(pid))] and [inr msg]
    for [(False, msg)]; [start] reads the pid back with [int(result)]. *)
Definition _start_proxy (w : World) (slot : SlotState) (dev : string) : Z + string :=
  match proxy_executable w with
  | None => inr "No serial proxy executable found"%string
  | Some _ =>
      if negb (device_ready w dev) then
        inr ("Device " +:+ dev +:+ " not ready after settle timeout")%string
      else
        match popen w with
        | inr e => inr e
        | inl child =>
            match poll w with
            | Some returncode =>
                inr ("Proxy exited immediately with code " +:+ pretty returncode)%string
            | None =>
                if port_comes_up w then inl (Z.pos child)
                else inr "Proxy started but port not listening"%string
            end
        end
  end.

Definition unknown_slot (k : string) : Response :=
  mkResponse false None None None None (Some "Unknown slot_key"%string) (Some k).

(** The body of [start] under [with slot.lock]. *)
Definition start_locked (w : World) (dev : string) (s0 : SlotState)
  : Response * SlotState :=
  let s := mkSlot (label s0) (slot_key s0) (tcp_port s0) (running s0) (pid s0)
                  (devnode s0) (last_gen s0 + 1) (last_error s0) in
  if running s && pid_truthy (pid s) && bool_decide (devnode s = Some dev)
     && (is_process_alive w (pid_value (pid s)) && is_port_listening w (tcp_port s))
  then
    (mkResponse true (Some true) (Some false) (Some (tcp_port s)) None None None, s)
  else
    let s1 := if running s && pid_truthy (pid s)
              then mkSlot (label s) (slot_key s) (tcp_port s) false None
                          (devnode s) (last_gen s) (last_error s)
              else s in
    match _start_proxy w s1 dev with
    | inl child =>
        (mkResponse true (Some true) (Some true) (Some (tcp_port s1)) (Some child)
                    None None,
         mkSlot (label s1) (slot_key s1) (tcp_port s1) true (Some child)
                (Some dev) (last_gen s1) None)
    | inr result =>
        (mkResponse false None None None None (Some result) None,
         mkSlot (label s1) (slot_key s1) (tcp_port s1) false None
                None (last_gen s1) (Some result))
    end.

(** [Portal.start] *)
Definition start (w : World) (k dev : string) (p : Portal) : Response * Portal :=
  match slots p !! k with
  | None => (unknown_slot k, p)
  | Some s =>
      let '(r, s') := start_locked w dev s in
      (r, mkPortal (<[k := s']> (slots p)) (host_ip p))
  end.

(** The body of [stop] under [with slot.lock]. *)
Definition stop_locked (w : World) (s0 : SlotState) : Response * SlotState :=
  let s := mkSlot (label s0) (slot_key s0) (tcp_port s0) (running s0) (pid s0)
                  (devnode s0) (last_gen s0 + 1) (last_error s0) in
  if negb (running s) || negb (pid_truthy (pid s)) then
    (mkResponse true (Some false) None None None None None, s)
  else
    (mkResponse true (Some false) None None None None None,
     mkSlot (label s) (slot_key s) (tcp_port s) false None None (last_gen s) None).

(** [Portal.stop] *)
Definition stop (w : World) (k : string) (p : Portal) : Response * Portal :=
  match slots p !! k with
  | None => (unknown_slot k, p)
  | Some s =>
      let '(r, s') := stop_locked w s in
      (r, mkPortal (<[k := s']> (slots p)) (host_ip p))
  end.

(** The health refresh of [get_devices] on one slot. *)
Definition reap (w : World) (s : SlotState) : SlotState :=
  if running s && pid_truthy (pid s) then
    if negb (is_process_alive w (pid_value (pid s))) then
      mkSlot (label s) (slot_key s) (tcp_port s) false None (devnode s)
             (last_gen s) (Some "Process died"%string)
    else s
  else s.

(** One entry of the list [get_devices] returns. *)
Record SlotInfo := mkInfo {
  i_label : string;
  i_slot_key : string;
  i_tcp_port : Z;
  i_running : bool;
  i_devnode : option string;
  i_pid : option Z;
  i_url : option string;
  i_last_gen : Z;
  i_last_error : option string
}.

Definition snapshot (host : string) (s : SlotState) : SlotInfo :=
  mkInfo (label s) (slot_key s) (tcp_port s) (running s) (devnode s) (pid s)
         (if running s
          then Some ("rfc2217://" +:+ host +:+ ":" +:+ pretty (tcp_port s))%string
          else None)
         (last_gen s) (last_error s).

(** [Portal.get_devices]: every slot is refreshed, then reported.  The
    report is keyed by slot_key here; the source lists the entries in the
    order of the configuration file. *)
Definition get_devices (w : World) (p : Portal)
  : gmap string SlotInfo * string * Portal :=
  let slots' := reap w <$> slots p in
  (snapshot (host_ip p) <$> slots', host_ip p, mkPortal slots' (host_ip p)).

(** Truth value of what [data.get(...)] returns for a string field. *)
Definition truthy (s : option string) : bool :=
  match s with
  | Some x => negb (String.eqb x EmptyString)
  | None => false
  end.

(** What the handler sends back: a supervisor result or an error body. *)
Inductive HttpReply :=
| Result (status : Z) (body : Response)
| Error (status : Z) (message : string).

(** The [/api/hotplug] branch of [RequestHandler.do_POST]. *)
Definition hotplug (w : World) (action dev id_path : option string) (p : Portal)
  : HttpReply * Portal :=
  if negb (truthy action) || negb (truthy id_path) then
    (Error 400 "Missing action or id_path", p)
  else
    let k := default EmptyString id_path in
    if bool_decide (action = Some "add"%string) then
      if negb (truthy dev) then (Error 400 "Missing devnode for add", p)
      else
        let '(r, p') := start w k (default EmptyString dev) p in
        (Result 200 r, p')
    else if bool_decide (action = Some "remove"%string) then
      let '(r, p') := stop w k p in
      (Result 200 r, p')
    else
      (Error 400 ("Unknown action: " +:+ default EmptyString action), p).

(** The slot invariant of the specification. *)
Definition slot_invariant (s : SlotState) : Prop :=
  (running s = true -> pid s <> None /\ devnode s <> None) /\
  (running s = false -> pid s = None /\ devnode s = None).

(** An invocation of [start] or [stop], made directly or through the
    hotplug endpoint, with the answers the operating system gives. *)
Inductive Invocation :=
| CallStart (w : World) (dev : string)
| CallStop (w : World)
| HotplugAdd (w : World) (dev : string)
| HotplugRemove (w : World).

Definition invoke (k : string) (c : Invocation) (p : Portal) : Portal :=
  match c with
  | CallStart w dev => snd (start w k dev p)
  | CallStop w => snd (stop w k p)
  | HotplugAdd w dev => snd (hotplug w (Some "add"%string) (Some dev) (Some k) p)
  | HotplugRemove w => snd (hotplug w (Some "remove"%string) None (Some k) p)
  end.

(** A hotplug request reaches [start] or [stop] only with its fields set. *)
Definition dispatched (k : string) (c : Invocation) : Prop :=
  match c with
  | CallStart _ _ | CallStop _ => True
  | HotplugAdd _ dev => k <> EmptyString /\ dev <> EmptyString
  | HotplugRemove _ => k <> EmptyString
  end.

(** [last_gen] of slot [k] as [get_devices] would report it. *)
Definition observed_gen (k : string) (p : Portal) : option Z :=
  last_gen <$> slots p !! k.

(** The values of [last_gen] seen after each invocation of a sequence. *)
Fixpoint gen_trace (k : string) (cs : list Invocation) (p : Portal) : list (option Z) :=
  match cs with
  | [] => []
  | c :: tl => let p' := invoke k c p in observed_gen k p' :: gen_trace k tl p'
  end.

Definition invoke_all (k : string) (cs : list Invocation) (p : Portal) : Portal :=
  fold_left (fun q c => invoke k c q) cs p.

End PortalV2.

(** ** Sample worlds and slots *)

Module Samples.
Import PortalV2.

(** A world in which the proxy starts and every process and port is up. *)
Definition healthy_world (child : positive) : World :=
  mkWorld (fun _ => true) (fun _ => true)
          (Some "/usr/local/bin/serial_proxy.py"%string)
          (fun _ => true) (inl child) None true.

(** A world in which no process is alive and no device becomes ready. *)
Definition dead_world : World :=
  mkWorld (fun _ => false) (fun _ => false)
          (Some "/usr/local/bin/serial_proxy.py"%string)
          (fun _ => false) (inr "spawn failed"%string) None false.

Definition slot_idle : SlotState := new_slot "A" "usb-1" 4001.

Definition slot_running : SlotState :=
  mkSlot "A" "usb-1" 4001 true (Some 1234) (Some "/dev/ttyUSB0"%string) 1 None.

Definition portal_idle : Portal :=
  mkPortal {[ "usb-1"%string := slot_idle ]} "10.0.0.1".

Definition portal_running : Portal :=
  mkPortal {[ "usb-1"%string := slot_running ]} "10.0.0.1".

End Samples.


(** ** Vocabulary for further properties of the codec *)

Module CodecMore.
Import Py SerialProxy Codec.

(** What a call may do to the proxy: the client stays as it is, and
    replies and log lines are only added. *)
Definition extends (p p' : Proxy) : Prop :=
  client_socket p' = client_socket p /\
  sent p `prefix_of` sent p' /\
  logged p `prefix_of` logged p' /\
  (client_socket p = false -> sent p' = sent p).

End CodecMore.

(** ** [pi/portal_v2.py]: configuration, system info and the HTTP facade *)

Module Facade.
Import PortalV2.

(** One element of the ["slots"] list of the configuration file; a key
    that is absent is [None] (subscripting it raises [KeyError]). *)
Record SlotCfg := mkCfg {
  cfg_label : option string;
  cfg_slot_key : option string;
  cfg_tcp_port : option Z
}.

(** What opening and parsing the configuration file gives. *)
Inductive ConfigFile :=
| FileMissing
| FileUnreadable
| FileParsed (entries : list SlotCfg).

(** The [for] loop of [_load_config].  An entry with a missing key raises
    before anything is stored, and the [except] around the loop ends the
    loading there.  ([slots_by_label], which is written here and read
    nowhere, is left out.) *)
Fixpoint load_entries (entries : list SlotCfg) (m : gmap string SlotState)
  : gmap string SlotState :=
  match entries with
  | [] => m
  | e :: tl =>
      match cfg_label e, cfg_slot_key e, cfg_tcp_port e with
      | Some l, Some k, Some t => load_entries tl (<[k := new_slot l k t]> m)
      | _, _, _ => m
      end
  end.

(** [Portal._load_config] *)
Definition _load_config (f : ConfigFile) : gmap string SlotState :=
  match f with
  | FileParsed entries => load_entries entries ∅
  | FileMissing | FileUnreadable => ∅
  end.

(** [Portal.__init__] *)
Definition new_portal (f : ConfigFile) (host : string) : Portal :=
  mkPortal (_load_config f) host.

(** The dict [get_info] returns. *)
Record Info := mkSysInfo {
  info_host_ip : string;
  info_config_file : string;
  slots_configured : nat;
  slots_running : nat
}.

(** [Portal.get_info]; the path of the configuration file, which the
    portal keeps beside its slots, is passed in. *)
Definition get_info (config_file : string) (p : Portal) : Info :=
  mkSysInfo (host_ip p) config_file (size (slots p))
            (size (filter (fun kv => running kv.2 = true) (slots p))).

(** The [/api/start] branch of [RequestHandler.do_POST]. *)
Definition api_start (w : World) (slot_key dev : option string) (p : Portal)
  : HttpReply * Portal :=
  if negb (truthy slot_key) || negb (truthy dev) then
    (Error 400 "Missing slot_key or devnode", p)
  else
    let '(r, p') := start w (default EmptyString slot_key) (default EmptyString dev) p in
    (Result (if success r then 200 else 400) r, p').

(** The [/api/stop] branch of [RequestHandler.do_POST]. *)
Definition api_stop (w : World) (slot_key : option string) (p : Portal)
  : HttpReply * Portal :=
  if negb (truthy slot_key) then (Error 400 "Missing slot_key", p)
  else
    let '(r, p') := stop w (default EmptyString slot_key) p in
    (Result (if success r then 200 else 400) r, p').

(** [RequestHandler.do_POST]; [data] is what [read_json] returned, a JSON
    object with string fields, or [None] for a body that does not
    parse. *)
Definition do_POST (w : World) (path : string) (data : option (gmap string string))
    (p : Portal) : HttpReply * Portal :=
  match data with
  | None => (Error 400 "Invalid JSON", p)
  | Some d =>
      if bool_decide (path = "/api/start"%string) then
        api_start w (d !! "slot_key"%string) (d !! "devnode"%string) p
      else if bool_decide (path = "/api/stop"%string) then
        api_stop w (d !! "slot_key"%string) p
      else if bool_decide (path = "/api/hotplug"%string) then
        hotplug w (d !! "action"%string) (d !! "devnode"%string)
                (d !! "id_path"%string) p
      else (Error 404 "Not found", p)
  end.

(** A request that reaches the portal: an invocation on a slot key, or
    [get_devices]. *)
Inductive Request :=
| Invoke (k : string) (c : Invocation)
| GetDevices (w : World).

Definition serve (rq : Request) (p : Portal) : Portal :=
  match rq with
  | Invoke k c => invoke k c p
  | GetDevices w => (get_devices w p).2
  end.

Definition serve_all (rqs : list Request) (p : Portal) : Portal :=
  fold_left (fun q rq => serve rq q) rqs p.

Definition is_invoke (rq : Request) : Prop :=
  match rq with
  | Invoke _ _ => True
  | GetDevices _ => False
  end.

(** The guard of the early return of [start]: the slot already runs a
    live proxy on this devnode and its port answers. *)
Definition healthy (w : World) (dev : string) (s : SlotState) : bool :=
  running s && pid_truthy (pid s) && bool_decide (devnode s = Some dev)
  && (is_process_alive w (pid_value (pid s)) && is_port_listening w (tcp_port s)).

(** What holds of every slot after any requests, [get_devices] included:
    a running slot has a usable pid, a devnode and no error; a stopped
    slot has no pid. *)
Definition slot_sound (s : SlotState) : Prop :=
  (running s = true ->
   pid_truthy (pid s) = true /\ devnode s <> None /\ last_error s = None) /\
  (running s = false -> pid s = None).

(** A complete configuration entry. *)
Definition complete (e : SlotCfg) : Prop :=
  is_Some (cfg_label e) /\ is_Some (cfg_slot_key e) /\ is_Some (cfg_tcp_port e).

End Facade.

(** ** [pi/serial_proxy.py]: the name [SerialLogger] gives its log files *)

Module Logger.
Import Stdlib.Strings.Ascii.

(** [s.replace(old, new)] for single characters. *)
Fixpoint replace_char (old new : Ascii.ascii) (s : string) : string :=
  match s with
  | EmptyString => EmptyString
  | String c tl =>
      String (if Ascii.eqb c old then new else c) (replace_char old new tl)
  end.

(** [s[:n]] *)
Fixpoint str_take (n : nat) (s : string) : string :=
  match n, s with
  | S n', String c tl => String c (str_take n' tl)
  | _, _ => EmptyString
  end.

(** [s.replace('dev_', '')]: occurrences are removed from left to right
    and do not overlap; [skip] counts the characters of an occurrence
    that are still to be passed over. *)
Fixpoint remove_dev (skip : nat) (s : string) : string :=
  match s with
  | EmptyString => EmptyString
  | String c tl =>
      match skip with
      | S k => remove_dev k tl
      | O =>
          if String.prefix "dev_" s then remove_dev 3 tl
          else String c (remove_dev 0 tl)
      end
  end.

(** [info.get(key, '')] *)
Definition dict_get (info : gmap string string) (key : string) : string :=
  default EmptyString (info !! key).

(** Truth value of a string. *)
Definition nonempty (s : string) : bool :=
  match s with
  | EmptyString => false
  | String _ _ => true
  end.

(** [device_name.replace('/', '_').replace('dev_', '')] *)
Definition fallback_name (device_name : string) : string :=
  remove_dev 0 (replace_char "/"%char "_"%char device_name).

(** The attribute [device_name] that [SerialLogger.__init__] computes
    from the dict of sysfs attributes ([None] when none is given; an
    empty dict is false as well) and the tty name. *)
Definition logger_device_name (device_info : option (gmap string string))
    (device_name : string) : string :=
  match device_info with
  | Some info =>
      if bool_decide (info = ∅) then fallback_name device_name
      else
        let product :=
          str_take 20 (replace_char "/"%char "_"%char
                         (replace_char " "%char "_"%char (dict_get info "product"))) in
        let serial := str_take 10 (dict_get info "serial") in
        if nonempty product && nonempty serial then
          (product +:+ "_" +:+ serial)%string
        else if nonempty product then product
        else if nonempty serial then serial
        else fallback_name device_name
  | None => fallback_name device_name
  end.

(** Whether the character occurs in the string. *)
Fixpoint has_char (c : Ascii.ascii) (s : string) : bool :=
  match s with
  | EmptyString => false
  | String x tl => Ascii.eqb x c || has_char c tl
  end.

End Logger.
(** ** Facts about the built-ins *)

Module PyFacts.
Import Py.

Lemma find_pair_cons2 x y a b tl pos :
  find_pair x y (a :: b :: tl) pos =
  if (a =? x) && (b =? y) then Some pos else find_pair x y (b :: tl) (S pos).
Proof. reflexivity. Qed.

Lemma find_pair_shift x y l k pos :
  find_pair x y l (k + pos) = (fun e => (k + e)%nat) <$> find_pair x y l pos.
Proof.
  revert pos. induction l as [|a tl IH]; intros pos; [done|].
  destruct tl as [|b tl']; [done|].
  rewrite !find_pair_cons2. destruct ((a =? x) && (b =? y)); [done|].
  replace (S (k + pos)) with (k + S pos)%nat by lia. apply IH.
Qed.

Lemma find_pair_bounds x y l pos e :
  find_pair x y l pos = Some e -> (pos <= e /\ e + 2 <= pos + length l)%nat.
Proof.
  revert pos. induction l as [|a tl IH]; intros pos; [done|].
  destruct tl as [|b tl']; [done|].
  rewrite find_pair_cons2. destruct ((a =? x) && (b =? y)).
  - intros [= <-]. cbn. lia.
  - intros H. apply IH in H. cbn [length] in *. lia.
Qed.

Lemma find_pair_take_Some x y l pos e n :
  find_pair x y l pos = Some e -> (e + 2 <= pos + n)%nat ->
  find_pair x y (take n l) pos = Some e.
Proof.
  revert pos n. induction l as [|a tl IH]; intros pos n; [done|].
  destruct tl as [|b tl']; [done|].
  rewrite find_pair_cons2. destruct ((a =? x) && (b =? y)) eqn:E.
  - intros [= <-] Hn. destruct n as [|[|n]]; [lia|lia|].
    change (take (S (S n)) (a :: b :: tl')) with (a :: b :: take n tl').
    by rewrite find_pair_cons2, E.
  - intros H Hn. pose proof (find_pair_bounds _ _ _ _ _ H) as [Hb _].
    destruct n as [|[|n]]; [lia|lia|].
    change (take (S (S n)) (a :: b :: tl')) with (a :: b :: take n tl').
    rewrite find_pair_cons2, E.
    apply (IH (S pos) (S n) H). lia.
Qed.

Lemma find_pair_take_None x y l pos n :
  find_pair x y l pos = None -> find_pair x y (take n l) pos = None.
Proof.
  revert pos n. induction l as [|a tl IH]; intros pos n; [by destruct n|].
  destruct tl as [|b tl'].
  { intros _. by destruct n as [|[|n]]. }
  rewrite find_pair_cons2. destruct ((a =? x) && (b =? y)) eqn:E; [done|].
  intros H. destruct n as [|[|n]]; [done|done|].
  change (take (S (S n)) (a :: b :: tl')) with (a :: b :: take n tl').
  rewrite find_pair_cons2, E. apply (IH (S pos) (S n) H).
Qed.

Lemma find_bounds data x y s e :
  find data x y s = Some e -> (s <= e /\ e + 2 <= length data)%nat.
Proof.
  unfold find. intros H. apply find_pair_bounds in H.
  rewrite length_drop in H. lia.
Qed.

Lemma find_app_shift pre data x y s :
  find (pre ++ data) x y (length pre + s) =
  (fun e => (length pre + e)%nat) <$> find data x y s.
Proof. unfold find. rewrite drop_app_add. apply find_pair_shift. Qed.

Lemma find_take_Some data x y s e k :
  find data x y s = Some e -> (e + 2 <= k)%nat ->
  find (take k data) x y s = Some e.
Proof.
  unfold find. intros H Hk.
  pose proof (find_pair_bounds _ _ _ _ _ H) as [Hs _].
  rewrite skipn_firstn_comm. apply find_pair_take_Some; [done | lia].
Qed.

Lemma find_take_None data x y s k :
  find data x y s = None -> find (take k data) x y s = None.
Proof.
  unfold find. intros H. rewrite skipn_firstn_comm.
  by apply find_pair_take_None.
Qed.

Lemma byte_at_app_shift pre data j :
  byte_at (pre ++ data) (length pre + j) = byte_at data j.
Proof. apply app_nth2_plus. Qed.

Lemma byte_at_take data k j :
  (j < k)%nat -> byte_at (take k data) j = byte_at data j.
Proof.
  intros H. unfold byte_at. rewrite nth_firstn.
  by destruct (Nat.ltb_spec j k); [|lia].
Qed.

Lemma slice_app_shift pre data a b :
  slice (pre ++ data) (length pre + a) (length pre + b) = slice data a b.
Proof.
  unfold slice. rewrite drop_app_add. f_equal. lia.
Qed.

Lemma slice_take data k a b :
  (b <= k)%nat -> slice (take k data) a b = slice data a b.
Proof.
  intros H. unfold slice. rewrite skipn_firstn_comm, take_take.
  f_equal. lia.
Qed.

(** [to_bytes] undoes [from_bytes] on four bytes. *)
Lemma int_to_from_bytes4 b3 b2 b1 b0 :
  is_byte b3 = true -> is_byte b2 = true ->
  is_byte b1 = true -> is_byte b0 = true ->
  int_to_bytes4_big (int_from_bytes_big [b3; b2; b1; b0]) = Some [b3; b2; b1; b0].
Proof.
  unfold is_byte. intros H3 H2 H1 H0.
  apply andb_prop in H3 as [?%Z.leb_le ?%Z.ltb_lt].
  apply andb_prop in H2 as [?%Z.leb_le ?%Z.ltb_lt].
  apply andb_prop in H1 as [?%Z.leb_le ?%Z.ltb_lt].
  apply andb_prop in H0 as [?%Z.leb_le ?%Z.ltb_lt].
  unfold int_from_bytes_big, int_to_bytes4_big. cbn [fold_left].
  set (n := ((0 * 256 + b3) * 256 + b2) * 256 + b1).
  assert (Hn : 0 <= n * 256 + b0 < 2 ^ 32) by (subst n; lia).
  destruct (Z.leb_spec 0 (n * 256 + b0)); [|lia].
  destruct (Z.ltb_spec (n * 256 + b0) (2 ^ 32)); [|lia].
  cbn [andb]. f_equal.
  assert (E0 : (n * 256 + b0) mod 256 = b0).
  { rewrite Z.add_comm, Z.mod_add by lia. apply Z.mod_small. lia. }
  assert (E1 : (n * 256 + b0) / 2 ^ 8 = n).
  { change (2 ^ 8) with 256. rewrite Z.add_comm, Z.div_add by lia.
    rewrite Z.div_small by lia. lia. }
  assert (E2 : (n * 256 + b0) / 2 ^ 16 = (0 * 256 + b3) * 256 + b2).
  { change (2 ^ 16) with (256 * 256). rewrite <- Z.div_div by lia.
    change 256 with (2 ^ 8) at 2. rewrite E1. subst n.
    rewrite Z.add_comm, Z.div_add by lia. rewrite Z.div_small by lia. lia. }
  assert (E3 : (n * 256 + b0) / 2 ^ 24 = b3).
  { change (2 ^ 24) with (2 ^ 16 * 256). rewrite <- Z.div_div by lia.
    rewrite E2. rewrite Z.add_comm, Z.div_add by lia.
    rewrite Z.div_small by lia. lia. }
  rewrite E0, E1, E2, E3. subst n.
  f_equal; [apply Z.mod_small; lia|].
  f_equal; [rewrite Z.add_comm, Z.mod_add by lia; apply Z.mod_small; lia|].
  f_equal. rewrite Z.add_comm, Z.mod_add by lia. apply Z.mod_small; lia.
Qed.

End PyFacts.

(** ** The parsing loop *)

Module CodecFacts.
Import Py SerialProxy Codec PyFacts.

Lemma loop_body_idx_lt data c : (idx c < idx (loop_body data c))%nat.
Proof.
  unfold loop_body.
  repeat (case_match; cbn [idx]); try lia.
  match goal with H : find _ _ _ _ = Some _ |- _ => apply find_bounds in H end.
  lia.
Qed.

Lemma loop_body_idx_le data c :
  (idx c < length data)%nat -> (idx (loop_body data c) <= length data)%nat.
Proof.
  intros Hi. unfold loop_body.
  repeat (case_match; cbn [idx]);
    repeat match goal with
      | H : _ && _ = true |- _ => apply andb_prop in H as [? ?]
      | H : (_ <? _)%nat = true |- _ => apply Nat.ltb_lt in H
      | H : find _ _ _ _ = Some _ |- _ => apply find_bounds in H
      end; try lia.
Qed.

Lemma loop_body_prepend o data c :
  loop_body data (prepend_output o c) = prepend_output o (loop_body data c).
Proof.
  unfold loop_body, prepend_output. cbn [idx output proxy].
  repeat (case_match; cbn [idx output proxy]); try reflexivity;
    by rewrite app_assoc.
Qed.

Lemma loop_body_shift pre data c :
  loop_body (pre ++ data) (shift_cursor (length pre) c) =
  shift_cursor (length pre) (loop_body data c).
Proof.
  unfold loop_body, shift_cursor. cbn [idx output proxy].
  set (n := length pre). set (i := idx c).
  rewrite length_app. fold n.
  replace (n + i + 1)%nat with (n + (i + 1))%nat by lia.
  replace (n + i + 2)%nat with (n + (i + 2))%nat by lia.
  replace (n + i + 3)%nat with (n + (i + 3))%nat by lia.
  replace (n + i + 4)%nat with (n + (i + 4))%nat by lia.
  subst n. rewrite !byte_at_app_shift, find_app_shift.
  replace (length pre + (i + 1) <? length pre + length data)%nat
    with (i + 1 <? length data)%nat
    by (destruct (Nat.ltb_spec (i + 1) (length data));
        destruct (Nat.ltb_spec (length pre + (i + 1)) (length pre + length data)); lia).
  replace (length pre + (i + 2) <? length pre + length data)%nat
    with (i + 2 <? length data)%nat
    by (destruct (Nat.ltb_spec (i + 2) (length data));
        destruct (Nat.ltb_spec (length pre + (i + 2)) (length pre + length data)); lia).
  destruct ((byte_at data i =? IAC) && (i + 1 <? length data)%nat);
    [|cbn [idx output proxy]; f_equal; lia].
  destruct (byte_at data (i + 1) =? IAC); [cbn [idx output proxy]; f_equal; lia|].
  destruct ((byte_at data (i + 1) =? SB) && (i + 2 <? length data)%nat).
  - destruct (byte_at data (i + 2) =? COM_PORT_OPTION);
      [|cbn [idx output proxy]; f_equal; lia].
    destruct (find data IAC SE (i + 3)) as [e|]; cbn [fmap option_fmap option_map];
      [|cbn [idx output proxy]; f_equal; lia].
    rewrite slice_app_shift.
    replace (length pre + (i + 3) <? length pre + e)%nat with (i + 3 <? e)%nat
      by (destruct (Nat.ltb_spec (i + 3) e);
          destruct (Nat.ltb_spec (length pre + (i + 3)) (length pre + e)); lia).
    cbn [idx output proxy]. f_equal. lia.
  - destruct (is_negotiation (byte_at data (i + 1)));
      [|cbn [idx output proxy]; f_equal; lia].
    destruct (i + 2 <? length data)%nat; cbn [idx output proxy]; f_equal; lia.
Qed.

Lemma loop_body_take data k c :
  (idx c < k)%nat -> (idx (loop_body data c) <= k)%nat -> (k <= length data)%nat ->
  loop_body (take k data) c = loop_body data c.
Proof.
  intros Hi Hk Hlen. revert Hk. unfold loop_body.
  set (i := idx c) in *.
  rewrite length_take, (Nat.min_l k (length data)) by lia.
  rewrite (byte_at_take data k i) by lia.
  destruct (byte_at data i =? IAC) eqn:E0; cbn [andb].
  2:{ intros _. reflexivity. }
  destruct (Nat.ltb_spec (i + 1) (length data)) as [L1|L1]; cbn [idx].
  2:{ intros _. destruct (Nat.ltb_spec (i + 1) k); [lia|reflexivity]. }
  destruct (byte_at data (i + 1) =? IAC) eqn:E1; cbn [idx].
  { intros Hk. destruct (Nat.ltb_spec (i + 1) k); [|lia].
    rewrite byte_at_take, E1 by lia. reflexivity. }
  destruct (byte_at data (i + 1) =? SB) eqn:E2; cbn [andb].
  - (* subnegotiation *)
    assert (Hneg : is_negotiation (byte_at data (i + 1)) = false).
    { apply Z.eqb_eq in E2. rewrite E2. reflexivity. }
    destruct (Nat.ltb_spec (i + 2) (length data)) as [L2|L2].
    + destruct (byte_at data (i + 2) =? COM_PORT_OPTION) eqn:E3.
      * destruct (find data IAC SE (i + 3)) as [e|] eqn:F; cbn [idx].
        -- intros Hk. pose proof (find_bounds _ _ _ _ _ F) as [Fs Fe].
           destruct (Nat.ltb_spec (i + 1) k); [|lia].
           rewrite (byte_at_take data k (i + 1)), E1, E2 by lia. cbn [andb].
           destruct (Nat.ltb_spec (i + 2) k); [|lia].
           rewrite (byte_at_take data k (i + 2)), E3 by lia.
           rewrite (find_take_Some _ _ _ _ _ k F) by lia.
           rewrite slice_take by lia.
           destruct (Nat.ltb_spec (i + 3) e); [|reflexivity].
           rewrite byte_at_take by lia. reflexivity.
        -- intros Hk. destruct (Nat.ltb_spec (i + 1) k); [|lia].
           rewrite (byte_at_take data k (i + 1)), E1, E2 by lia. cbn [andb].
           destruct (Nat.ltb_spec (i + 2) k).
           ++ rewrite (byte_at_take data k (i + 2)), E3 by lia.
              by rewrite find_take_None.
           ++ by rewrite Hneg.
      * cbn [idx]. intros Hk. destruct (Nat.ltb_spec (i + 1) k); [|lia].
        rewrite (byte_at_take data k (i + 1)), E1, E2 by lia. cbn [andb].
        destruct (Nat.ltb_spec (i + 2) k).
        -- by rewrite (byte_at_take data k (i + 2)), E3 by lia.
        -- by rewrite Hneg.
    + rewrite Hneg. cbn [idx]. intros Hk.
      destruct (Nat.ltb_spec (i + 1) k); [|lia].
      rewrite (byte_at_take data k (i + 1)), E1, E2 by lia. cbn [andb].
      destruct (Nat.ltb_spec (i + 2) k); [lia|]. by rewrite Hneg.
  - destruct (is_negotiation (byte_at data (i + 1))) eqn:E4.
    + destruct (Nat.ltb_spec (i + 2) (length data)) as [L2|L2]; cbn [idx].
      * intros Hk. destruct (Nat.ltb_spec (i + 1) k); [|lia].
        rewrite (byte_at_take data k (i + 1)), E1, E2, E4 by lia. cbn [andb].
        destruct (Nat.ltb_spec (i + 2) k); [|lia].
        rewrite (byte_at_take data k (i + 2)) by lia. reflexivity.
      * intros Hk. destruct (Nat.ltb_spec (i + 1) k); [|lia].
        rewrite (byte_at_take data k (i + 1)), E1, E2, E4 by lia. cbn [andb].
        destruct (Nat.ltb_spec (i + 2) k); [lia|]. reflexivity.
    + cbn [idx]. intros Hk. destruct (Nat.ltb_spec (i + 1) k); [|lia].
      rewrite (byte_at_take data k (i + 1)), E1, E2, E4 by lia. reflexivity.
Qed.

Lemma handle_loop_done fuel data c :
  (length data <= idx c)%nat -> handle_loop fuel data c = Some c.
Proof.
  intros H. destruct fuel; cbn [handle_loop];
    by destruct (Nat.leb_spec (length data) (idx c)); [|lia].
Qed.

Lemma handle_loop_step fuel data c :
  (idx c < length data)%nat ->
  handle_loop (S fuel) data c = handle_loop fuel data (loop_body data c).
Proof.
  intros H. cbn [handle_loop].
  by destruct (Nat.leb_spec (length data) (idx c)); [lia|].
Qed.

(** The loop ends within [len(data) - i] passes. *)
Lemma handle_loop_total fuel data c :
  (length data - idx c <= fuel)%nat -> is_Some (handle_loop fuel data c).
Proof.
  revert c. induction fuel as [|fuel IH]; intros c H.
  - rewrite handle_loop_done by lia. eauto.
  - destruct (Nat.le_gt_cases (length data) (idx c)) as [Hd|Hd].
    + rewrite handle_loop_done by lia. eauto.
    + rewrite handle_loop_step by lia. apply IH.
      pose proof (loop_body_idx_lt data c). lia.
Qed.

Lemma handle_loop_fuel_mono f f' data c r :
  handle_loop f data c = Some r -> (f <= f')%nat -> handle_loop f' data c = Some r.
Proof.
  revert f' c. induction f as [|f IH]; intros f' c H Hf.
  - destruct (Nat.le_gt_cases (length data) (idx c)) as [Hd|Hd].
    + rewrite handle_loop_done in * by lia. done.
    + cbn [handle_loop] in H.
      by destruct (Nat.leb_spec (length data) (idx c)); [lia|].
  - destruct (Nat.le_gt_cases (length data) (idx c)) as [Hd|Hd].
    + rewrite handle_loop_done in * by lia. done.
    + destruct f' as [|f']; [lia|].
      rewrite handle_loop_step in * by lia. apply (IH f'); [done|lia].
Qed.

Lemma handle_loop_fuel_irrelevant f f' data c r r' :
  handle_loop f data c = Some r -> handle_loop f' data c = Some r' -> r = r'.
Proof.
  intros H H'.
  apply (handle_loop_fuel_mono _ (f `max` f')) in H; [|lia].
  apply (handle_loop_fuel_mono _ (f `max` f')) in H'; [|lia].
  congruence.
Qed.

Lemma handle_loop_prepend o f data c :
  handle_loop f data (prepend_output o c) = prepend_output o <$> handle_loop f data c.
Proof.
  revert c. induction f as [|f IH]; intros c; cbn [handle_loop];
    change (idx (prepend_output o c)) with (idx c);
    destruct (length data <=? idx c)%nat; try done.
  rewrite loop_body_prepend. apply IH.
Qed.

Lemma handle_loop_shift pre f data c :
  handle_loop f (pre ++ data) (shift_cursor (length pre) c) =
  shift_cursor (length pre) <$> handle_loop f data c.
Proof.
  revert c. induction f as [|f IH]; intros c; cbn [handle_loop];
    change (idx (shift_cursor (length pre) c)) with (length pre + idx c)%nat;
    rewrite length_app;
    replace (length pre + length data <=? length pre + idx c)%nat
      with (length data <=? idx c)%nat
      by (destruct (Nat.leb_spec (length data) (idx c));
          destruct (Nat.leb_spec (length pre + length data) (length pre + idx c)); lia);
    destruct (length data <=? idx c)%nat; try done.
  rewrite loop_body_shift. apply IH.
Qed.

Lemma run_steps_idx_mono n data c : (idx c <= idx (run_steps n data c))%nat.
Proof.
  revert c. induction n as [|n IH]; intros c; cbn [run_steps]; [lia|].
  destruct (length data <=? idx c)%nat; [lia|].
  pose proof (loop_body_idx_lt data c). specialize (IH (loop_body data c)). lia.
Qed.

Lemma run_steps_idx_le n data c :
  (idx c <= length data)%nat -> (idx (run_steps n data c) <= length data)%nat.
Proof.
  revert c. induction n as [|n IH]; intros c H; cbn [run_steps]; [lia|].
  destruct (Nat.leb_spec (length data) (idx c)); [lia|].
  apply IH. by apply loop_body_idx_le.
Qed.

Lemma handle_loop_run_steps n f data c r :
  handle_loop f data c = Some r -> handle_loop f data (run_steps n data c) = Some r.
Proof.
  revert f c. induction n as [|n IH]; intros f c H; cbn [run_steps]; [done|].
  destruct (Nat.leb_spec (length data) (idx c)) as [Hd|Hd]; [done|].
  destruct f as [|f].
  - cbn [handle_loop] in H.
    by destruct (Nat.leb_spec (length data) (idx c)); [lia|].
  - rewrite handle_loop_step in H by lia.
    apply (handle_loop_fuel_mono f); [|lia]. by apply IH.
Qed.

Lemma handle_loop_take n data c :
  (idx (run_steps n data c) <= length data)%nat ->
  exists f, handle_loop f (take (idx (run_steps n data c)) data) c
            = Some (run_steps n data c).
Proof.
  revert c. induction n as [|n IH]; intros c; cbn [run_steps].
  - intros H. exists 0%nat. apply handle_loop_done. rewrite length_take. lia.
  - destruct (Nat.leb_spec (length data) (idx c)) as [Hd|Hd].
    + intros H. exists 0%nat. apply handle_loop_done. rewrite length_take. lia.
    + intros H. destruct (IH _ H) as [f Hf]. exists (S f).
      pose proof (loop_body_idx_lt data c) as Hlt.
      pose proof (run_steps_idx_mono n data (loop_body data c)) as Hm.
      rewrite handle_loop_step by (rewrite length_take; lia).
      rewrite loop_body_take by lia. done.
Qed.

(** [handle_rfc2217] returns on every buffer. *)
Lemma handle_rfc2217_total data p : is_Some (handle_rfc2217 data p).
Proof.
  unfold handle_rfc2217.
  destruct (handle_loop_total (length data) data (mkCursor 0 [] p)) as [c ->];
    [cbn; lia | eauto].
Qed.

Lemma handle_rfc2217_loop f data p c :
  handle_loop f data (mkCursor 0 [] p) = Some c ->
  handle_rfc2217 data p = Some (output c, proxy c).
Proof.
  intros H. unfold handle_rfc2217.
  destruct (handle_loop_total (length data) data (mkCursor 0 [] p)) as [c' Hc'];
    [cbn; lia|].
  rewrite Hc'. by rewrite (handle_loop_fuel_irrelevant _ _ _ _ _ _ H Hc').
Qed.

(** A parse that has reached position [k] goes on as a fresh parse of the
    bytes from [k] on. *)
Lemma handle_loop_resume f data c r :
  (idx c <= length data)%nat ->
  handle_loop f data c = Some r ->
  exists o2 p2, handle_rfc2217 (drop (idx c) data) (proxy c) = Some (o2, p2) /\
                output r = output c ++ o2 /\ proxy r = p2.
Proof.
  destruct c as [k o p]. cbn [idx output proxy]. intros Hk H.
  assert (Hc : mkCursor k o p = prepend_output o
                 (shift_cursor (length (take k data)) (mkCursor 0 [] p))).
  { unfold prepend_output, shift_cursor. cbn [idx output proxy].
    by rewrite length_take, Nat.min_l, Nat.add_0_r, app_nil_r by lia. }
  rewrite Hc in H. rewrite <- (take_drop k data) in H at 1.
  rewrite handle_loop_prepend, handle_loop_shift in H.
  destruct (handle_loop f (drop k data) (mkCursor 0 [] p)) as [r2|] eqn:E;
    [|done].
  cbn in H. injection H as <-.
  exists (output r2), (proxy r2). split; [|done].
  by apply (handle_rfc2217_loop f).
Qed.

Lemma find_pair_None_pos x y l pos :
  find_pair x y l 0 = None -> find_pair x y l pos = None.
Proof.
  intros H. replace pos with (pos + 0)%nat by lia.
  by rewrite find_pair_shift, H.
Qed.

Lemma find_pair_terminator x y pl rest pos :
  x <> y -> find_pair x y pl pos = None ->
  find_pair x y (pl ++ x :: y :: rest) pos = Some (pos + length pl)%nat.
Proof.
  intros Hxy. revert pos. induction pl as [|a tl IH]; intros pos H.
  - cbn [app length]. rewrite find_pair_cons2, !Z.eqb_refl. cbn. f_equal. lia.
  - destruct tl as [|b tl'].
    + cbn [app length]. rewrite !find_pair_cons2, !Z.eqb_refl.
      destruct (Z.eqb_spec x y); [done|]. rewrite andb_false_r. cbn. f_equal. lia.
    + rewrite find_pair_cons2 in H.
      change ((a :: b :: tl') ++ x :: y :: rest)
        with (a :: b :: (tl' ++ x :: y :: rest)).
      rewrite find_pair_cons2.
      destruct ((a =? x) && (b =? y)); [done|].
      change (b :: tl' ++ x :: y :: rest) with ((b :: tl') ++ x :: y :: rest).
      rewrite (IH (S pos) H). cbn [length]. f_equal. lia.
Qed.

(** A complete COM-Port-Option subnegotiation at the head of the buffer
    is handed to [_handle_com_port_option] in one pass of the loop. *)
Lemma loop_body_request_frame subcmd payload rest o p :
  subcmd <> IAC -> find payload IAC SE 0 = None ->
  loop_body (request_frame subcmd payload ++ rest) (mkCursor 0 o p) =
  mkCursor (length (request_frame subcmd payload)) o
           (_handle_com_port_option subcmd payload p).
Proof.
  intros Hs Hp. unfold find in Hp. rewrite drop_0 in Hp.
  unfold request_frame. rewrite <- !app_assoc.
  change ([IAC; SB; COM_PORT_OPTION; subcmd] ++ payload ++ [IAC; SE] ++ rest)
    with (IAC :: SB :: COM_PORT_OPTION :: subcmd :: (payload ++ IAC :: SE :: rest)).
  assert (F : find (IAC :: SB :: COM_PORT_OPTION :: subcmd :: (payload ++ IAC :: SE :: rest))
                IAC SE 3 = Some (4 + length payload)%nat).
  { unfold find. change (drop 3 (IAC :: SB :: COM_PORT_OPTION :: subcmd :: ?l))
      with (subcmd :: l).
    destruct payload as [|b tl].
    - cbn [app]. rewrite find_pair_cons2.
      destruct (Z.eqb_spec subcmd IAC); [done|]. cbn [andb].
      rewrite find_pair_cons2. reflexivity.
    - change (subcmd :: (b :: tl) ++ IAC :: SE :: rest)
        with (subcmd :: b :: (tl ++ IAC :: SE :: rest)).
      rewrite find_pair_cons2.
      destruct (Z.eqb_spec subcmd IAC); [done|]. cbn [andb].
      change (b :: tl ++ IAC :: SE :: rest) with ((b :: tl) ++ IAC :: SE :: rest).
      rewrite find_pair_terminator; [done|done|by apply find_pair_None_pos]. }
  unfold loop_body. cbn [idx output proxy Nat.add]. rewrite F.
  unfold byte_at. cbn [nth length].
  change (IAC =? IAC) with true. change (SB =? IAC) with false.
  change (SB =? SB) with true. change (COM_PORT_OPTION =? COM_PORT_OPTION) with true.
  cbn [andb Nat.ltb Nat.leb].
  f_equal.
  - rewrite !length_app. cbn [length]. lia.
  - f_equal. unfold slice. cbn [drop].
    replace (4 + length payload - 4)%nat with (length payload) by lia.
    by rewrite drop_0, take_app_length.
Qed.

Lemma handle_request_frame subcmd payload rest p :
  subcmd <> IAC -> find payload IAC SE 0 = None ->
  handle_rfc2217 (request_frame subcmd payload ++ rest) p =
  handle_rfc2217 rest (_handle_com_port_option subcmd payload p).
Proof.
  intros Hs Hp.
  set (p' := _handle_com_port_option subcmd payload p).
  set (frame := request_frame subcmd payload).
  destruct (handle_loop_total (length (frame ++ rest)) rest (mkCursor 0 [] p')) as [r Hr].
  { cbn [idx]. rewrite length_app. lia. }
  rewrite (handle_rfc2217_loop _ _ _ _ Hr).
  rewrite (handle_rfc2217_loop (S (length (frame ++ rest))) _ _
             (shift_cursor (length frame) r)); [reflexivity|].
  rewrite handle_loop_step.
  2:{ cbn [idx]. rewrite length_app. unfold frame, request_frame. cbn [length app]. lia. }
  subst frame. rewrite loop_body_request_frame by done. fold p'.
  replace (mkCursor (length (request_frame subcmd payload)) [] p')
    with (shift_cursor (length (request_frame subcmd payload)) (mkCursor 0 [] p'))
    by (unfold shift_cursor; cbn [idx output proxy]; f_equal; lia).
  by rewrite handle_loop_shift, Hr.
Qed.

(** The position and the application data never depend on the proxy. *)
Lemma loop_body_proxy_irrelevant data i o p q :
  idx (loop_body data (mkCursor i o p)) = idx (loop_body data (mkCursor i o q)) /\
  output (loop_body data (mkCursor i o p)) = output (loop_body data (mkCursor i o q)).
Proof.
  unfold loop_body. cbn [idx output proxy].
  repeat (case_match; cbn [idx output proxy]); done.
Qed.

Lemma handle_loop_proxy_irrelevant f data i o p q :
  (fun c => (idx c, output c)) <$> handle_loop f data (mkCursor i o p) =
  (fun c => (idx c, output c)) <$> handle_loop f data (mkCursor i o q).
Proof.
  revert i o p q. induction f as [|f IH]; intros i o p q; cbn [handle_loop idx];
    destruct (length data <=? i)%nat; try done.
  destruct (loop_body_proxy_irrelevant data i o p q) as [Hi Ho].
  destruct (loop_body data (mkCursor i o p)) as [i1 o1 p1].
  destruct (loop_body data (mkCursor i o q)) as [i2 o2 p2].
  cbn [idx output] in Hi, Ho. subst i2 o2. apply IH.
Qed.

Lemma handle_rfc2217_output_proxy_irrelevant data p q :
  fst <$> handle_rfc2217 data p = fst <$> handle_rfc2217 data q.
Proof.
  unfold handle_rfc2217.
  pose proof (handle_loop_proxy_irrelevant (length data) data 0 [] p q) as H.
  destruct (handle_loop (length data) data (mkCursor 0 [] p));
    destruct (handle_loop (length data) data (mkCursor 0 [] q)); cbn in *; congruence.
Qed.

Lemma send_com_port_option_connected resp payload p :
  client_socket p = true -> is_byte resp = true ->
  _send_com_port_option resp payload p = send (reply_frame resp payload) p.
Proof.
  intros Hc Hb. unfold _send_com_port_option, bytes_of. rewrite Hc.
  cbn [forallb]. rewrite Hb. reflexivity.
Qed.

Lemma send_connected msg p :
  client_socket p = true ->
  send msg p = mkProxy (serial p) true (sent p ++ [msg]) (logged p).
Proof. intros Hc. unfold send. by rewrite Hc. Qed.

Lemma send_com_port_option_sent resp payload p :
  sent (_send_com_port_option resp payload p) = sent p \/
  sent (_send_com_port_option resp payload p) = sent p ++ [reply_frame resp payload].
Proof.
  unfold _send_com_port_option, bytes_of.
  destruct (client_socket p); [|by left].
  destruct (forallb is_byte [IAC; SB; COM_PORT_OPTION; resp]); [by right|by left].
Qed.

End CodecFacts.

(** ** The statements of the specification about the codec *)

Module CodecClaims.
Import Py SerialProxy Codec PyFacts CodecFacts.

(** C1, as amended.  When the split point [k] is a position at which the
    one-call parse of the whole buffer begins an item (it does not fall
    inside an [IAC] sequence or inside a complete COM-Port-Option
    subnegotiation), feeding [data[:k]] and then [data[k:]] in two
    successive calls yields the same application data, the same serial
    settings, the same replies and the same log as feeding [data] in one
    call.  The codec keeps no bytes between calls. *)
Theorem split_at_item_boundary (data : list Z) (p : Proxy) (n k : nat) :
  idx (run_steps n data (mkCursor 0 [] p)) = k ->
  exists r, handle_rfc2217 data p = Some r /\
            feed_two (take k data) (drop k data) p = Some r.
Proof.
  intros Hk. set (c := run_steps n data (mkCursor 0 [] p)) in *.
  assert (Hle : (idx c <= length data)%nat).
  { apply run_steps_idx_le. cbn [idx]. lia. }
  destruct (handle_loop_total (length data) data (mkCursor 0 [] p)) as [r Hr];
    [cbn [idx]; lia|].
  exists (output r, proxy r). split; [by apply (handle_rfc2217_loop (length data))|].
  destruct (handle_loop_take n data (mkCursor 0 [] p) Hle) as [f Hf].
  fold c in Hf. apply handle_rfc2217_loop in Hf.
  apply (handle_loop_run_steps n) in Hr. fold c in Hr.
  destruct (handle_loop_resume _ _ _ _ Hle Hr) as (o2 & p2 & H2 & Ho & Hp).
  unfold feed_two. subst k. rewrite Hf, H2, Ho, Hp. reflexivity.
Qed.

Lemma split_at_item_boundary_witness :
  idx (run_steps 2 [65; 255; 255; 66] (mkCursor 0 [] proxy0)) = 3%nat /\
  exists r, handle_rfc2217 [65; 255; 255; 66] proxy0 = Some r /\
            feed_two (take 3 [65; 255; 255; 66]) (drop 3 [65; 255; 255; 66]) proxy0
            = Some r.
Proof.
  split; [reflexivity|].
  apply (split_at_item_boundary [65; 255; 255; 66] proxy0 2 3). reflexivity.
Defined.

(** C1 as stated fails: when a valid stream is split between the two
    bytes of an [IAC IAC] escape, the second call takes the second [IAC]
    and the data byte after it for a command and drops both; and a
    COM-Port-Option subnegotiation split before its [IAC SE] is not
    retained: its bytes go to the serial port and no control event
    happens. *)
Lemma split_inside_item_differs :
  feed_two (take 2 (encode [Data 65; EscapedIAC; Data 66]))
           (drop 2 (encode [Data 65; EscapedIAC; Data 66])) proxy0
    = Some ([65; 255], proxy0) /\
  handle_rfc2217 (encode [Data 65; EscapedIAC; Data 66]) proxy0
    = Some ([65; 255; 66], proxy0) /\
  feed_two (take 5 (encode [ComPort SET_CONTROL [8]]))
           (drop 5 (encode [ComPort SET_CONTROL [8]])) proxy0
    = Some ([44; 5; 8], proxy0) /\
  handle_rfc2217 (encode [ComPort SET_CONTROL [8]]) proxy0
    = Some ([], mkProxy serial0 true [[255; 250; 44; 105; 8; 255; 240]] [LogDTR true]) /\
  ~ (forall ts k p,
       feed_two (take k (encode ts)) (drop k (encode ts)) p
       = handle_rfc2217 (encode ts) p).
Proof.
  assert (H1 : feed_two (take 2 (encode [Data 65; EscapedIAC; Data 66]))
                 (drop 2 (encode [Data 65; EscapedIAC; Data 66])) proxy0
               = Some ([65; 255], proxy0)) by reflexivity.
  assert (H2 : handle_rfc2217 (encode [Data 65; EscapedIAC; Data 66]) proxy0
               = Some ([65; 255; 66], proxy0)) by reflexivity.
  repeat split; try reflexivity.
  intros H. specialize (H [Data 65; EscapedIAC; Data 66] 2%nat proxy0).
  rewrite H1, H2 in H. discriminate H.
Qed.

(** C10.  If the parse reaches the last byte of the buffer and that byte
    is [IAC], so that no command byte follows it in this read, the [0xFF]
    is appended to the application data that is written to the serial
    port; nothing is held back for the next read. *)
Theorem trailing_iac_is_data (d : list Z) (p : Proxy) (n : nat) (c : Cursor) :
  run_steps n (d ++ [IAC]) (mkCursor 0 [] p) = c ->
  idx c = length d ->
  handle_rfc2217 (d ++ [IAC]) p = Some (output c ++ [IAC], proxy c).
Proof.
  intros Hc Hi. set (data := d ++ [IAC]) in *.
  assert (Hlen : length data = S (length d)).
  { unfold data. rewrite length_app. cbn [length]. lia. }
  destruct (handle_loop_total (length data) data (mkCursor 0 [] p)) as [r Hr];
    [cbn [idx]; lia|].
  rewrite (handle_rfc2217_loop _ _ _ _ Hr).
  apply (handle_loop_run_steps n) in Hr. rewrite Hc in Hr.
  rewrite Hlen, handle_loop_step in Hr by lia.
  assert (Hb : loop_body data c = mkCursor (idx c + 1) (output c ++ [IAC]) (proxy c)).
  { unfold loop_body. rewrite Hi, Hlen.
    replace (byte_at data (length d)) with IAC
      by (unfold byte_at, data; by rewrite nth_middle).
    destruct (Nat.ltb_spec (length d + 1) (S (length d))); [lia|].
    by rewrite andb_false_r. }
  rewrite Hb, handle_loop_done in Hr by (cbn [idx]; lia).
  by injection Hr as <-.
Qed.

Lemma trailing_iac_is_data_witness :
  handle_rfc2217 ([65; 66] ++ [IAC]) proxy0 = Some ([65; 66] ++ [IAC], proxy0).
Proof.
  apply (trailing_iac_is_data [65; 66] proxy0 2 (mkCursor 2 [65; 66] proxy0));
    reflexivity.
Defined.

(** C5, as amended.  For every SET_BAUDRATE subnegotiation whose payload
    is four bytes with a big-endian value above zero that the open
    serial port accepts (the baudrate setter does not raise), and holds
    no [IAC SE] pair, which would end the frame early, received while a
    client is attached, the serial baudrate is set to that value and the
    reply carries resp_cmd 101 and the applied baudrate as four
    big-endian bytes.  Concretely, on a port that takes every rate below
    2^31, FF FA 2C 01 00 0E 10 00 FF F0 sets 921600 baud and is answered
    by FF FA 2C 65 00 0E 10 00 FF F0. *)
Theorem set_baudrate_applied_and_echoed (b3 b2 b1 b0 : Z) (rest : list Z) (p : Proxy) :
  forallb is_byte [b3; b2; b1; b0] = true ->
  0 < int_from_bytes_big [b3; b2; b1; b0] ->
  accepts_baudrate (serial p) (int_from_bytes_big [b3; b2; b1; b0]) = true ->
  find [b3; b2; b1; b0] IAC SE 0 = None ->
  client_socket p = true ->
  exists bs,
    int_to_bytes4_big (int_from_bytes_big [b3; b2; b1; b0]) = Some bs /\
    handle_rfc2217 (request_frame SET_BAUDRATE [b3; b2; b1; b0] ++ rest) p =
    handle_rfc2217 rest
      (mkProxy (set_baudrate (int_from_bytes_big [b3; b2; b1; b0]) (serial p)) true
               (sent p ++ [reply_frame 101 bs])
               (logged p ++ [LogBaudrate (int_from_bytes_big [b3; b2; b1; b0])])) /\
    handle_rfc2217 [255; 250; 44; 1; 0; 14; 16; 0; 255; 240] proxy0 =
    Some ([], mkProxy (set_baudrate 921600 serial0) true
                      [[255; 250; 44; 101; 0; 14; 16; 0; 255; 240]]
                      [LogBaudrate 921600]).
Proof.
  intros Hb Hpos Hacc Hf Hc. exists [b3; b2; b1; b0].
  cbn [forallb] in Hb.
  apply andb_prop in Hb as [H3 Hb]. apply andb_prop in Hb as [H2 Hb].
  apply andb_prop in Hb as [H1 Hb]. apply andb_prop in Hb as [H0 _].
  pose proof (int_to_from_bytes4 b3 b2 b1 b0 H3 H2 H1 H0) as Hrt.
  split; [done|]. split; [|reflexivity].
  rewrite handle_request_frame by done. f_equal.
  unfold _handle_com_port_option.
  change (SET_BAUDRATE =? SET_BAUDRATE) with true.
  change (4 <=? length [b3; b2; b1; b0])%nat with true. cbn [andb].
  change (take 4 [b3; b2; b1; b0]) with [b3; b2; b1; b0].
  destruct (Z.ltb_spec 0 (int_from_bytes_big [b3; b2; b1; b0])); [|lia].
  rewrite Hacc. cbn [andb negb].
  cbn [log with_serial serial baudrate set_baudrate]. rewrite Hrt.
  rewrite send_com_port_option_connected by done.
  unfold send, log, with_serial. cbn [serial client_socket sent logged].
  rewrite Hc. reflexivity.
Qed.

Lemma set_baudrate_applied_and_echoed_witness :
  exists bs,
    int_to_bytes4_big (int_from_bytes_big [0; 0; 37; 128]) = Some bs /\
    handle_rfc2217 (request_frame SET_BAUDRATE [0; 0; 37; 128] ++ [65]) proxy0 =
    handle_rfc2217 [65]
      (mkProxy (set_baudrate (int_from_bytes_big [0; 0; 37; 128]) (serial proxy0)) true
               (sent proxy0 ++ [reply_frame 101 bs])
               (logged proxy0 ++ [LogBaudrate (int_from_bytes_big [0; 0; 37; 128])])) /\
    handle_rfc2217 [255; 250; 44; 1; 0; 14; 16; 0; 255; 240] proxy0 =
    Some ([], mkProxy (set_baudrate 921600 serial0) true
                      [[255; 250; 44; 101; 0; 14; 16; 0; 255; 240]]
                      [LogBaudrate 921600]).
Proof.
  apply (set_baudrate_applied_and_echoed 0 0 37 128 [65] proxy0);
    [reflexivity | reflexivity | reflexivity | reflexivity | reflexivity].
Defined.

(** C5 as stated fails on its own example: the payload 00 00 E1 00 is
    57600, so the baudrate becomes 57600, not 921600, and the reply
    carries 00 00 E1 00, not 00 0E 10 00.  It also fails for a value the
    port refuses: on a port that takes rates below 2^31 only, the payload
    80 00 00 00 is answered by no reply, and an error is logged. *)
Lemma set_baudrate_example_is_57600 :
  handle_rfc2217 [255; 250; 44; 1; 0; 0; 225; 0; 255; 240] proxy0 =
    Some ([], mkProxy (set_baudrate 57600 serial0) true
                      [[255; 250; 44; 101; 0; 0; 225; 0; 255; 240]]
                      [LogBaudrate 57600]) /\
  (exists out p',
     handle_rfc2217 [255; 250; 44; 1; 128; 0; 0; 0; 255; 240] proxy0 = Some (out, p') /\
     sent p' = [] /\ logged p' = [LogError]) /\
  ~ (exists out p',
       handle_rfc2217 [255; 250; 44; 1; 0; 0; 225; 0; 255; 240] proxy0 = Some (out, p') /\
       baudrate (serial p') = 921600 /\
       sent p' = [[255; 250; 44; 101; 0; 14; 16; 0; 255; 240]]).
Proof.
  assert (H : handle_rfc2217 [255; 250; 44; 1; 0; 0; 225; 0; 255; 240] proxy0 =
    Some ([], mkProxy (set_baudrate 57600 serial0) true
                      [[255; 250; 44; 101; 0; 0; 225; 0; 255; 240]]
                      [LogBaudrate 57600])) by reflexivity.
  split; [exact H|]. split.
  { eexists _, _. split; [reflexivity|]. split; reflexivity. }
  intros (out & p' & Hh & Hb & _). rewrite H in Hh. injection Hh as _ <-.
  cbn in Hb. discriminate Hb.
Qed.

(** C6, the code at a subnegotiation of another option.  On
    FF FA 18 01 FF F0 (option 24) only [IAC SB] and [IAC SE] are dropped:
    the option byte and the payload are returned as application data. *)
Theorem foreign_subnegotiation_leaks_payload :
  handle_rfc2217 [255; 250; 24; 1; 255; 240] proxy0 = Some ([24; 1], proxy0).
Proof. reflexivity. Qed.

(** C7, as amended.  A reply handed to the client while one is attached
    is [IAC SB 44 resp_cmd <payload> IAC SE] with the payload bytes as
    they are (a [0xFF] among them is sent once, not doubled), and every
    reply [_handle_com_port_option] sends for [subcmd] has that shape
    with [resp_cmd = subcmd + 100]. *)
Theorem reply_frame_verbatim (subcmd resp : Z) (data payload : list Z) (p : Proxy) :
  client_socket p = true ->
  is_byte resp = true ->
  sent (_send_com_port_option resp payload p)
    = sent p ++ [[IAC; SB; COM_PORT_OPTION; resp] ++ payload ++ [IAC; SE]] /\
  (sent (_handle_com_port_option subcmd data p) = sent p \/
   exists pl, sent (_handle_com_port_option subcmd data p)
              = sent p ++ [[IAC; SB; COM_PORT_OPTION; subcmd + 100] ++ pl ++ [IAC; SE]]).
Proof.
  intros Hc Hb. split.
  { by rewrite send_com_port_option_connected. }
  clear Hc Hb resp payload.
  assert (S : forall pl q, sent q = sent p ->
            sent (_send_com_port_option (subcmd + 100) pl q) = sent p \/
            exists pl', sent (_send_com_port_option (subcmd + 100) pl q)
                        = sent p ++ [[IAC; SB; COM_PORT_OPTION; subcmd + 100] ++ pl' ++ [IAC; SE]]).
  { intros pl q Hq.
    destruct (send_com_port_option_sent (subcmd + 100) pl q) as [-> | ->];
      rewrite Hq; [by left | right; by exists pl]. }
  unfold _handle_com_port_option.
  repeat case_match; try (apply S; reflexivity); by left.
Qed.

Lemma reply_frame_verbatim_witness :
  sent (_send_com_port_option 101 [0; 0; 255; 0] proxy0)
    = sent proxy0 ++ [[IAC; SB; COM_PORT_OPTION; 101] ++ [0; 0; 255; 0] ++ [IAC; SE]] /\
  (sent (_handle_com_port_option 1 [0; 0; 255; 0] proxy0) = sent proxy0 \/
   exists pl, sent (_handle_com_port_option 1 [0; 0; 255; 0] proxy0)
              = sent proxy0 ++ [[IAC; SB; COM_PORT_OPTION; 1 + 100] ++ pl ++ [IAC; SE]]).
Proof.
  apply (reply_frame_verbatim 1 101 [0; 0; 255; 0] [0; 0; 255; 0] proxy0);
    reflexivity.
Defined.

(** C7 as stated fails: the reply to SET_BAUDRATE 65280 (00 00 FF 00)
    carries the [0xFF] of the baudrate once; the escape-doubled frame
    would be one byte longer. *)
Lemma reply_iac_not_doubled :
  sent (_handle_com_port_option SET_BAUDRATE [0; 0; 255; 0] proxy0)
    = [[255; 250; 44; 101; 0; 0; 255; 0; 255; 240]] /\
  int_to_bytes4_big 65280 = Some [0; 0; 255; 0] /\
  escaped_reply 101 [0; 0; 255; 0] = [255; 250; 44; 101; 0; 0; 255; 255; 0; 255; 240] /\
  sent (_handle_com_port_option SET_BAUDRATE [0; 0; 255; 0] proxy0)
    <> [escaped_reply 101 [0; 0; 255; 0]].
Proof. repeat split; try reflexivity. discriminate. Qed.

(** C8, as amended.  A COM-Port-Option subnegotiation whose payload is
    shorter than its subcommand needs (fewer than 4 bytes for
    SET_BAUDRATE, none for SET_DATASIZE, SET_PARITY, SET_STOPSIZE and
    SET_CONTROL) changes no serial setting, writes no log line and
    gives no byte to the application data; it is acknowledged like an
    unknown subcommand, by a reply with [resp_cmd = subcmd + 100] that
    echoes the payload, or a single zero byte when the payload is
    empty. *)
Theorem short_payload_acknowledged (subcmd : Z) (payload rest : list Z) (p : Proxy) :
  (length payload < required_length subcmd)%nat ->
  find payload IAC SE 0 = None ->
  client_socket p = true ->
  handle_rfc2217 (request_frame subcmd payload ++ rest) p =
    handle_rfc2217 rest
      (mkProxy (serial p) true
               (sent p ++ [reply_frame (subcmd + 100) (or_zero payload)])
               (logged p)) /\
  fst <$> handle_rfc2217 (request_frame subcmd payload ++ rest) p =
  fst <$> handle_rfc2217 rest p.
Proof.
  intros Hlen Hf Hc.
  assert (Hh : _handle_com_port_option subcmd payload p =
               mkProxy (serial p) true
                 (sent p ++ [reply_frame (subcmd + 100) (or_zero payload)]) (logged p)
               /\ subcmd <> IAC).
  { unfold required_length in Hlen. unfold _handle_com_port_option.
    destruct (Z.eqb_spec subcmd SET_BAUDRATE) as [->|N1].
    - destruct (Nat.leb_spec 4 (length payload)); [lia|].
      split; [|done]. cbn -[_send_com_port_option or_zero Z.add].
      rewrite send_com_port_option_connected by done. by apply send_connected.
    - cbn [andb].
      destruct (Z.eqb_spec subcmd SET_DATASIZE) as [->|N2];
        [|destruct (Z.eqb_spec subcmd SET_PARITY) as [->|N3];
          [|destruct (Z.eqb_spec subcmd SET_STOPSIZE) as [->|N4];
            [|destruct (Z.eqb_spec subcmd SET_CONTROL) as [->|N5]]]];
        cbn [orb andb] in Hlen; try lia;
        (destruct (Nat.leb_spec 1 (length payload)); [lia|]);
        (split; [|done]); cbn -[_send_com_port_option or_zero Z.add];
        rewrite send_com_port_option_connected by done; by apply send_connected. }
  destruct Hh as [Hh Hs].
  rewrite handle_request_frame by done. rewrite Hh. split; [done|].
  apply handle_rfc2217_output_proxy_irrelevant.
Qed.

Lemma short_payload_acknowledged_witness :
  handle_rfc2217 (request_frame 1 [0; 0] ++ [65]) proxy0 =
    handle_rfc2217 [65]
      (mkProxy (serial proxy0) true
               (sent proxy0 ++ [reply_frame (1 + 100) (or_zero [0; 0])])
               (logged proxy0)) /\
  fst <$> handle_rfc2217 (request_frame 1 [0; 0] ++ [65]) proxy0 =
  fst <$> handle_rfc2217 [65] proxy0.
Proof.
  apply (short_payload_acknowledged 1 [0; 0] [65] proxy0);
    [cbn; lia | reflexivity | reflexivity].
Defined.

(** C8 as stated fails: SET_BAUDRATE with a two-byte payload and
    SET_CONTROL with an empty payload are each answered by a reply
    frame, and nothing is logged. *)
Lemma short_payload_is_replied :
  handle_rfc2217 [255; 250; 44; 1; 0; 0; 255; 240] proxy0 =
    Some ([], mkProxy serial0 true [[255; 250; 44; 101; 0; 0; 255; 240]] []) /\
  handle_rfc2217 [255; 250; 44; 5; 255; 240] proxy0 =
    Some ([], mkProxy serial0 true [[255; 250; 44; 105; 0; 255; 240]] []) /\
  ~ (forall subcmd payload p out p',
       (length payload < required_length subcmd)%nat ->
       handle_rfc2217 (request_frame subcmd payload) p = Some (out, p') ->
       sent p' = sent p).
Proof.
  assert (H : handle_rfc2217 [255; 250; 44; 1; 0; 0; 255; 240] proxy0 =
    Some ([], mkProxy serial0 true [[255; 250; 44; 101; 0; 0; 255; 240]] []))
    by reflexivity.
  repeat split; try reflexivity.
  intros N. specialize (N 1 [0; 0] proxy0 _ _ ltac:(cbn; lia) H). discriminate N.
Qed.

(** C9, the code at SET_STOPSIZE 3.  On FF FA 2C 04 03 FF F0 the stop
    bits become 1.5, and the reply payload is 1: [int(1.5)] is 1, so the
    entry [1.5: 3] of the reverse map is never reached. *)
Theorem stopsize_three_echoes_one :
  handle_rfc2217 [255; 250; 44; 4; 3; 255; 240] proxy0 =
    Some ([], mkProxy (set_stopbits (3 # 2)%Q serial0) true
                      [[255; 250; 44; 104; 1; 255; 240]]
                      [LogStopbits (3 # 2)%Q]) /\
  int_of_float (3 # 2)%Q = 1 /\
  dict_get_num stopbits_rmap (3 # 2)%Q 1 = 3.
Proof. repeat split; reflexivity. Qed.

End CodecClaims.

(** ** The slot supervisor *)

Module SupervisorFacts.
Import PortalV2.

Lemma start_locked_gen w dev s :
  last_gen (start_locked w dev s).2 = last_gen s + 1.
Proof.
  unfold start_locked. cbn [running pid devnode tcp_port last_gen].
  repeat (case_match; cbn [snd last_gen]); reflexivity.
Qed.

Lemma stop_locked_gen w s : last_gen (stop_locked w s).2 = last_gen s + 1.
Proof.
  unfold stop_locked. cbn [running pid last_gen].
  case_match; reflexivity.
Qed.

Lemma start_known w k dev p s :
  slots p !! k = Some s ->
  start w k dev p =
  ((start_locked w dev s).1,
   mkPortal (<[k := (start_locked w dev s).2]> (slots p)) (host_ip p)).
Proof. intros H. unfold start. rewrite H. by destruct (start_locked w dev s). Qed.

Lemma stop_known w k p s :
  slots p !! k = Some s ->
  stop w k p =
  ((stop_locked w s).1,
   mkPortal (<[k := (stop_locked w s).2]> (slots p)) (host_ip p)).
Proof. intros H. unfold stop. rewrite H. by destruct (stop_locked w s). Qed.

Lemma start_unknown w k dev p :
  slots p !! k = None -> start w k dev p = (unknown_slot k, p).
Proof. intros H. unfold start. by rewrite H. Qed.

Lemma stop_unknown w k p :
  slots p !! k = None -> stop w k p = (unknown_slot k, p).
Proof. intros H. unfold stop. by rewrite H. Qed.

Lemma truthy_Some (x : string) : x <> EmptyString -> truthy (Some x) = true.
Proof.
  intros H. unfold truthy. by destruct (String.eqb_spec x EmptyString).
Qed.

(** Hotplug dispatch: [add] is [start] and [remove] is [stop]. *)
Lemma hotplug_add w k dev p :
  k <> EmptyString -> dev <> EmptyString ->
  (hotplug w (Some "add"%string) (Some dev) (Some k) p).2 = (start w k dev p).2.
Proof.
  intros Hk Hd. unfold hotplug. rewrite (truthy_Some k Hk), (truthy_Some dev Hd).
  cbn [truthy String.eqb Ascii.eqb Bool.eqb negb orb default]. unfold id.
  case_bool_decide; [|done].
  by destruct (start w k dev p).
Qed.

Lemma hotplug_remove w k dev p :
  k <> EmptyString ->
  (hotplug w (Some "remove"%string) dev (Some k) p).2 = (stop w k p).2.
Proof.
  intros Hk. unfold hotplug. rewrite (truthy_Some k Hk).
  cbn [truthy String.eqb Ascii.eqb Bool.eqb negb orb default]. unfold id.
  case_bool_decide; [done|]. case_bool_decide; [|done].
  by destruct (stop w k p).
Qed.

Lemma hotplug_unknown w action dev k p :
  slots p !! k = None -> (hotplug w action dev (Some k) p).2 = p.
Proof.
  intros H. unfold hotplug.
  repeat (case_match; try done); cbn [default] in *.
  - rewrite start_unknown in * by done. by simplify_eq.
  - rewrite stop_unknown in * by done. by simplify_eq.
Qed.

Lemma invoke_unknown k c p : slots p !! k = None -> invoke k c p = p.
Proof.
  intros H. destruct c; cbn [invoke].
  - by rewrite start_unknown.
  - by rewrite stop_unknown.
  - by apply hotplug_unknown.
  - by apply hotplug_unknown.
Qed.

Lemma invoke_gen k c p s :
  slots p !! k = Some s -> dispatched k c ->
  exists s', slots (invoke k c p) !! k = Some s' /\ last_gen s' = last_gen s + 1.
Proof.
  intros H D. destruct c as [w dev|w|w dev|w]; cbn [invoke dispatched] in *.
  - rewrite (start_known _ _ _ _ _ H). cbn [snd slots].
    eexists. rewrite lookup_insert_eq. split; [done|]. apply start_locked_gen.
  - rewrite (stop_known _ _ _ _ H). cbn [snd slots].
    eexists. rewrite lookup_insert_eq. split; [done|]. apply stop_locked_gen.
  - destruct D as [Hk Hd]. rewrite hotplug_add by done.
    rewrite (start_known _ _ _ _ _ H). cbn [snd slots].
    eexists. rewrite lookup_insert_eq. split; [done|]. apply start_locked_gen.
  - rewrite hotplug_remove by done.
    rewrite (stop_known _ _ _ _ H). cbn [snd slots].
    eexists. rewrite lookup_insert_eq. split; [done|]. apply stop_locked_gen.
Qed.

(** [start] and [stop] keep the slot invariant. *)
Lemma start_locked_invariant w dev s :
  slot_invariant s -> slot_invariant (start_locked w dev s).2.
Proof.
  intros [Hr Hn]. unfold start_locked, slot_invariant.
  cbn [running pid devnode tcp_port last_gen].
  repeat (case_match; cbn [snd running pid devnode]); split; try done; auto.
Qed.

Lemma stop_locked_invariant w s :
  slot_invariant s -> slot_invariant (stop_locked w s).2.
Proof.
  intros [Hr Hn]. unfold stop_locked, slot_invariant.
  cbn [running pid devnode].
  case_match; cbn [snd running pid devnode]; split; try done; auto.
Qed.

(** The pid [_start_proxy] reports is the positive pid of the child. *)
Lemma _start_proxy_pid w s dev child :
  _start_proxy w s dev = inl child -> pid_truthy (Some child) = true.
Proof.
  unfold _start_proxy. intros H. repeat case_match; simplify_eq. done.
Qed.

Lemma get_devices_lookup w p k :
  slots (get_devices w p).2 !! k = reap w <$> slots p !! k.
Proof. unfold get_devices. cbn [snd slots]. apply lookup_fmap. Qed.

End SupervisorFacts.

(** ** The statements of the specification about the supervisor *)

Module SupervisorClaims.
Import PortalV2 Samples SupervisorFacts.

(** C2, the code at a reaped slot.  [get_devices] on a slot that is
    running with a pid and a devnode, when the child is no longer alive,
    clears [running] and [pid] and sets [last_error] to "Process died",
    and leaves [devnode] as it was: the slot that satisfied the invariant
    no longer does.  ([start] and [stop] keep it, see
    [start_locked_invariant] and [stop_locked_invariant].) *)
Theorem get_devices_reap_keeps_devnode :
  slot_invariant slot_running /\
  slots (get_devices dead_world portal_running).2 !! "usb-1"%string
    = Some (mkSlot "A" "usb-1" 4001 false None (Some "/dev/ttyUSB0"%string) 1
                   (Some "Process died"%string)) /\
  ~ slot_invariant
      (mkSlot "A" "usb-1" 4001 false None (Some "/dev/ttyUSB0"%string) 1
              (Some "Process died"%string)).
Proof.
  split; [|split].
  - split; cbn; [done|discriminate].
  - rewrite get_devices_lookup. unfold portal_running. cbn [slots].
    rewrite lookup_singleton_eq. reflexivity.
  - intros [_ H]. destruct (H eq_refl) as [_ Hd]. discriminate Hd.
Qed.

(** C3.  On a configured slot, every invocation of [start] or [stop],
    made directly or through the hotplug endpoint, and whatever its
    outcome, adds exactly one to [last_gen]: after a sequence of
    invocations the values observed are [g+1, g+2, ...], strictly
    increasing.  An invocation with an unknown slot_key leaves the
    portal, and so every [last_gen], unchanged. *)
Theorem last_gen_counts_invocations
    (k : string) (cs : list Invocation) (p : Portal) (s : SlotState) :
  slots p !! k = Some s ->
  Forall (dispatched k) cs ->
  observed_gen k (invoke_all k cs p) = Some (last_gen s + Z.of_nat (length cs)) /\
  gen_trace k cs p
    = (fun i => Some (last_gen s + Z.of_nat i)) <$> seq 1 (length cs) /\
  (forall k' c, slots p !! k' = None -> invoke k' c p = p).
Proof.
  intros Hs Hd. split; [|split].
  - revert p s Hs. induction Hd as [|c cs Hc Hcs IH]; intros p s Hs.
    + unfold observed_gen. cbn [invoke_all fold_left length]. rewrite Hs.
      cbn. f_equal. lia.
    + destruct (invoke_gen k c p s Hs Hc) as (s' & Hs' & Hg).
      change (invoke_all k (c :: cs) p) with (invoke_all k cs (invoke k c p)).
      rewrite (IH _ _ Hs'), Hg. cbn [length]. f_equal. lia.
  - revert p s Hs. induction Hd as [|c cs Hc Hcs IH]; intros p s Hs; [done|].
    destruct (invoke_gen k c p s Hs Hc) as (s' & Hs' & Hg).
    cbn [gen_trace length seq fmap list_fmap]. f_equal.
    + unfold observed_gen. rewrite Hs'. cbn. f_equal. lia.
    + rewrite (IH _ _ Hs'), Hg.
      rewrite <- (fmap_S_seq 1), <- list_fmap_compose.
      apply list_fmap_ext. intros _ i _. cbn. f_equal. lia.
  - intros k' c Hn. by apply invoke_unknown.
Qed.

Lemma last_gen_counts_invocations_witness :
  observed_gen "usb-1"
    (invoke_all "usb-1"
       [CallStart (healthy_world 77) "/dev/ttyUSB0"; CallStop dead_world;
        HotplugAdd dead_world "/dev/ttyUSB1"; HotplugRemove dead_world]
       portal_idle)
    = Some (last_gen slot_idle + Z.of_nat 4) /\
  gen_trace "usb-1"
       [CallStart (healthy_world 77) "/dev/ttyUSB0"; CallStop dead_world;
        HotplugAdd dead_world "/dev/ttyUSB1"; HotplugRemove dead_world]
       portal_idle
    = (fun i => Some (last_gen slot_idle + Z.of_nat i)) <$> seq 1 4 /\
  (forall k' c, slots portal_idle !! k' = None -> invoke k' c portal_idle = portal_idle).
Proof.
  apply (last_gen_counts_invocations "usb-1"
           [CallStart (healthy_world 77) "/dev/ttyUSB0"; CallStop dead_world;
            HotplugAdd dead_world "/dev/ttyUSB1"; HotplugRemove dead_world]
           portal_idle slot_idle).
  - reflexivity.
  - repeat constructor; discriminate.
Defined.

(** C4.  After a [start(k, d)] that returned [restarted = true], a
    repeated [start(k, d)] made while the child is alive and the TCP
    port is listening returns [success = true, restarted = false],
    leaves [running], [pid] and [devnode] as they were, and [last_gen]
    has gone up by one on each of the two calls. *)
Theorem start_twice_idempotent
    (w1 w2 : World) (k dev : string) (p p1 : Portal) (r1 : Response) :
  start w1 k dev p = (r1, p1) ->
  restarted r1 = Some true ->
  (forall s1, slots p1 !! k = Some s1 ->
     is_process_alive w2 (pid_value (pid s1)) = true /\
     is_port_listening w2 (tcp_port s1) = true) ->
  exists s0 s1 s2 r2 p2,
    slots p !! k = Some s0 /\ slots p1 !! k = Some s1 /\
    start w2 k dev p1 = (r2, p2) /\ slots p2 !! k = Some s2 /\
    success r2 = true /\ restarted r2 = Some false /\
    running s1 = true /\ devnode s1 = Some dev /\
    running s2 = running s1 /\ pid s2 = pid s1 /\ devnode s2 = devnode s1 /\
    last_gen s1 = last_gen s0 + 1 /\ last_gen s2 = last_gen s1 + 1.
Proof.
  intros Hstart Hre Hw.
  destruct (slots p !! k) as [s0|] eqn:Hs0.
  2:{ rewrite start_unknown in Hstart by done. by simplify_eq. }
  rewrite (start_known _ _ _ _ _ Hs0) in Hstart.
  injection Hstart as Hr1 Hp1.
  set (s1 := (start_locked w1 dev s0).2) in *.
  assert (Hl1 : slots p1 !! k = Some s1).
  { rewrite <- Hp1. cbn [slots]. apply lookup_insert_eq. }
  assert (Hg1 : last_gen s1 = last_gen s0 + 1) by apply start_locked_gen.
  assert (Hshape : running s1 = true /\ pid_truthy (pid s1) = true /\
                   devnode s1 = Some dev).
  { subst s1. rewrite <- Hr1 in Hre. revert Hre. unfold start_locked.
    cbn [running pid devnode tcp_port last_gen].
    repeat (case_match; cbn [fst snd restarted running pid devnode]);
      try discriminate; intros _;
      (split; [done|]); (split; [|done]); by eapply _start_proxy_pid. }
  destruct Hshape as (Hrun & Hpid & Hdev).
  destruct (Hw s1 Hl1) as [Halive Hlisten].
  assert (Hsecond : start_locked w2 dev s1 =
            (mkResponse true (Some true) (Some false) (Some (tcp_port s1)) None None None,
             mkSlot (label s1) (slot_key s1) (tcp_port s1) (running s1) (pid s1)
                    (devnode s1) (last_gen s1 + 1) (last_error s1))).
  { unfold start_locked. cbn [running pid devnode tcp_port last_gen].
    rewrite Hrun, Hpid, Hdev, Halive, Hlisten.
    rewrite bool_decide_eq_true_2 by done. reflexivity. }
  exists s0, s1, (start_locked w2 dev s1).2, (start_locked w2 dev s1).1,
    (mkPortal (<[k := (start_locked w2 dev s1).2]> (slots p1)) (host_ip p1)).
  split; [done|]. split; [done|].
  split; [by apply start_known|].
  split; [cbn [slots]; apply lookup_insert_eq|].
  rewrite Hsecond. cbn [fst snd success restarted running pid devnode last_gen].
  repeat split; done.
Qed.

Lemma start_twice_idempotent_witness :
  exists s0 s1 s2 r2 p2,
    slots portal_idle !! "usb-1"%string = Some s0 /\
    slots (start (healthy_world 77) "usb-1" "/dev/ttyUSB0" portal_idle).2 !! "usb-1"%string
      = Some s1 /\
    start (healthy_world 78) "usb-1" "/dev/ttyUSB0"
          (start (healthy_world 77) "usb-1" "/dev/ttyUSB0" portal_idle).2 = (r2, p2) /\
    slots p2 !! "usb-1"%string = Some s2 /\
    success r2 = true /\ restarted r2 = Some false /\
    running s1 = true /\ devnode s1 = Some "/dev/ttyUSB0"%string /\
    running s2 = running s1 /\ pid s2 = pid s1 /\ devnode s2 = devnode s1 /\
    last_gen s1 = last_gen s0 + 1 /\ last_gen s2 = last_gen s1 + 1.
Proof.
  apply (start_twice_idempotent (healthy_world 77) (healthy_world 78)
           "usb-1" "/dev/ttyUSB0" portal_idle
           (start (healthy_world 77) "usb-1" "/dev/ttyUSB0" portal_idle).2
           (start (healthy_world 77) "usb-1" "/dev/ttyUSB0" portal_idle).1).
  - apply surjective_pairing.
  - reflexivity.
  - intros s1 _. split; reflexivity.
Defined.

End SupervisorClaims.

(** ** More facts about the parsing loop *)

Module CodecMoreFacts.
Import Py SerialProxy Codec CodecMore PyFacts CodecFacts.

(** When the first pass consumes exactly the bytes [pre], the call goes
    on as a call on the remaining bytes. *)
Lemma handle_head pre rest p o1 p1 :
  (0 < length pre)%nat ->
  loop_body (pre ++ rest) (mkCursor 0 [] p) = mkCursor (length pre) o1 p1 ->
  handle_rfc2217 (pre ++ rest) p =
  (fun r => (o1 ++ r.1, r.2)) <$> handle_rfc2217 rest p1.
Proof.
  intros Hpre Hb.
  destruct (handle_loop_total (length (pre ++ rest)) rest (mkCursor 0 [] p1)) as [r Hr].
  { cbn [idx]. rewrite length_app. lia. }
  rewrite (handle_rfc2217_loop _ _ _ _ Hr).
  rewrite (handle_rfc2217_loop (S (length (pre ++ rest))) _ _
             (prepend_output o1 (shift_cursor (length pre) r))).
  { cbn. reflexivity. }
  rewrite handle_loop_step by (cbn [idx]; rewrite length_app; lia).
  rewrite Hb.
  replace (mkCursor (length pre) o1 p1)
    with (prepend_output o1 (shift_cursor (length pre) (mkCursor 0 [] p1)))
    by (unfold prepend_output, shift_cursor; cbn [idx output proxy];
        rewrite app_nil_r; f_equal; lia).
  by rewrite handle_loop_prepend, handle_loop_shift, Hr.
Qed.

Lemma loop_body_data b rest o p :
  b <> IAC ->
  loop_body (b :: rest) (mkCursor 0 o p) = mkCursor 1 (o ++ [b]) p.
Proof.
  intros Hb. unfold loop_body. cbn [idx output proxy]. unfold byte_at. cbn [nth].
  by destruct (Z.eqb_spec b IAC).
Qed.

Lemma loop_body_escape rest o p :
  loop_body (IAC :: IAC :: rest) (mkCursor 0 o p) = mkCursor 2 (o ++ [IAC]) p.
Proof. reflexivity. Qed.

Lemma loop_body_growth data c :
  (length (output (loop_body data c)) + idx c
   <= length (output c) + idx (loop_body data c))%nat.
Proof.
  pose proof (loop_body_idx_lt data c) as Hlt. revert Hlt. unfold loop_body.
  repeat (case_match; cbn [idx output]); rewrite ?length_app; cbn [length]; lia.
Qed.

Lemma handle_loop_growth f data c r :
  handle_loop f data c = Some r ->
  (length (output r) + idx c <= length (output c) + idx r)%nat /\
  ((idx c <= length data)%nat -> (idx r <= length data)%nat).
Proof.
  revert c. induction f as [|f IH]; intros c; cbn [handle_loop];
    destruct (Nat.leb_spec (length data) (idx c)) as [Hd|Hd]; try done.
  - intros [= <-]. lia.
  - intros [= <-]. lia.
  - intros H. destruct (IH _ H) as [Hg Hb].
    pose proof (loop_body_growth data c). pose proof (loop_body_idx_le data c Hd).
    split; [lia|]. intros _. by apply Hb.
Qed.

Lemma extends_refl p : extends p p.
Proof. by repeat split. Qed.

Lemma extends_trans p q r : extends p q -> extends q r -> extends p r.
Proof.
  intros (Hc & Hs & Hl & Hn) (Hc' & Hs' & Hl' & Hn'). repeat split.
  - congruence.
  - by etrans.
  - by etrans.
  - intros H. rewrite Hn' by congruence. by apply Hn.
Qed.

Lemma extends_log e p : extends p (log e p).
Proof. repeat split; cbn; [done|by apply prefix_app_r]. Qed.

Lemma extends_with_serial f p : extends p (with_serial f p).
Proof. by repeat split. Qed.

Lemma extends_send_com_port_option resp pl p :
  extends p (_send_com_port_option resp pl p).
Proof.
  unfold _send_com_port_option. destruct (client_socket p) eqn:E;
    [|apply extends_refl].
  destruct (bytes_of _); [|apply extends_refl].
  repeat split; cbn; [by apply prefix_app_r|done|congruence].
Qed.

Lemma extends_send_telnet cmd opt p : extends p (_send_telnet cmd opt p).
Proof.
  unfold _send_telnet. destruct (client_socket p) eqn:E; [|apply extends_refl].
  destruct (bytes_of _); [|apply extends_refl].
  repeat split; cbn; [by apply prefix_app_r|done|congruence].
Qed.

Lemma extends_handle_com_port_option subcmd data p :
  extends p (_handle_com_port_option subcmd data p).
Proof.
  unfold _handle_com_port_option.
  repeat case_match;
    repeat first
      [ apply extends_refl
      | apply extends_send_com_port_option
      | apply extends_log
      | apply extends_with_serial
      | (eapply extends_trans; [|apply extends_send_com_port_option])
      | (eapply extends_trans; [|apply extends_log]) ].
Qed.

Lemma extends_loop_body data c : extends (proxy c) (proxy (loop_body data c)).
Proof.
  unfold loop_body.
  repeat (case_match; cbn [proxy]);
    first [ apply extends_refl | apply extends_handle_com_port_option
          | apply extends_send_telnet ].
Qed.

Lemma extends_handle_loop f data c r :
  handle_loop f data c = Some r -> extends (proxy c) (proxy r).
Proof.
  revert c. induction f as [|f IH]; intros c; cbn [handle_loop];
    destruct (length data <=? idx c)%nat; try done;
    try (intros [= <-]; apply extends_refl).
  intros H. eapply extends_trans; [apply extends_loop_body|]. by apply IH.
Qed.


End CodecMoreFacts.

(** ** Further properties of the codec *)

Module CodecExtras.
Import Py SerialProxy Codec CodecMore PyFacts CodecFacts CodecMoreFacts.

(** X1.  Escape round trip: application data in which every [0xFF] has
    been doubled is returned exactly as it was before the doubling, and
    the proxy is left untouched (nothing is sent, logged or changed). *)
Theorem escaped_data_round_trip (payload : list Z) (p : Proxy) :
  handle_rfc2217 (escape_iac payload) p = Some (payload, p).
Proof.
  induction payload as [|b tl IH]; [reflexivity|].
  cbn [escape_iac]. destruct (Z.eqb_spec b IAC) as [->|Hb].
  - change (IAC :: IAC :: escape_iac tl) with ([IAC; IAC] ++ escape_iac tl).
    rewrite (handle_head [IAC; IAC] (escape_iac tl) p [IAC] p);
      [|cbn; lia|apply loop_body_escape].
    by rewrite IH.
  - change (b :: escape_iac tl) with ([b] ++ escape_iac tl).
    rewrite (handle_head [b] (escape_iac tl) p [b] p);
      [|cbn; lia|by apply loop_body_data].
    by rewrite IH.
Qed.

(** X2.  Telnet option negotiation: the three bytes [IAC cmd opt] with
    [cmd] one of DO, DONT, WILL, WONT give no application data.  With a
    client attached, [DO 44] is answered by [IAC WILL 44], [WILL 44] by
    [IAC DO 44], and every other negotiation is dropped without a
    reply. *)
Theorem negotiation_reply (cmd opt : Z) (rest : list Z) (p : Proxy) :
  is_negotiation cmd = true ->
  client_socket p = true ->
  handle_rfc2217 ([IAC; cmd; opt] ++ rest) p =
  handle_rfc2217 rest
    (if (cmd =? DO) && (opt =? COM_PORT_OPTION)
     then send [IAC; WILL; COM_PORT_OPTION] p
     else if (cmd =? WILL) && (opt =? COM_PORT_OPTION)
     then send [IAC; DO; COM_PORT_OPTION] p
     else p).
Proof.
  intros Hn Hc.
  set (p1 := if (cmd =? DO) && (opt =? COM_PORT_OPTION)
             then send [IAC; WILL; COM_PORT_OPTION] p
             else if (cmd =? WILL) && (opt =? COM_PORT_OPTION)
             then send [IAC; DO; COM_PORT_OPTION] p
             else p).
  rewrite (handle_head [IAC; cmd; opt] rest p [] p1); [|cbn; lia|].
  { by destruct (handle_rfc2217 rest p1) as [[]|]. }
  unfold loop_body. cbn [idx output proxy Nat.add app length]. unfold byte_at.
  cbn [nth Nat.ltb Nat.leb]. change (IAC =? IAC) with true. cbn [andb].
  assert (Hi : (cmd =? IAC) = false).
  { unfold is_negotiation in Hn. destruct (Z.eqb_spec cmd IAC) as [->|]; done. }
  assert (Hs : (cmd =? SB) = false).
  { unfold is_negotiation in Hn. destruct (Z.eqb_spec cmd SB) as [->|]; done. }
  rewrite Hi, Hs, Hn. cbn [andb]. subst p1. unfold _send_telnet. rewrite Hc.
  reflexivity.
Qed.

Lemma negotiation_reply_witness :
  handle_rfc2217 ([IAC; DO; COM_PORT_OPTION] ++ [65]) proxy0 =
  handle_rfc2217 [65]
    (if (DO =? DO) && (COM_PORT_OPTION =? COM_PORT_OPTION)
     then send [IAC; WILL; COM_PORT_OPTION] proxy0
     else if (DO =? WILL) && (COM_PORT_OPTION =? COM_PORT_OPTION)
     then send [IAC; DO; COM_PORT_OPTION] proxy0
     else proxy0).
Proof.
  apply (negotiation_reply DO COM_PORT_OPTION [65] proxy0); reflexivity.
Defined.

(** X3.  An [IAC] followed by a byte that is neither [IAC], [SB] nor a
    negotiation command (NOP, BREAK, a stray SE, ...) is dropped together
    with that byte: no application data, no reply, no change. *)
Theorem unknown_command_dropped (x : Z) (rest : list Z) (p : Proxy) :
  x <> IAC -> x <> SB -> is_negotiation x = false ->
  handle_rfc2217 ([IAC; x] ++ rest) p = handle_rfc2217 rest p.
Proof.
  intros Hi Hs Hn.
  rewrite (handle_head [IAC; x] rest p [] p); [|cbn; lia|].
  { by destruct (handle_rfc2217 rest p) as [[]|]. }
  unfold loop_body. cbn [idx output proxy Nat.add app length]. unfold byte_at.
  cbn [nth Nat.ltb Nat.leb]. change (IAC =? IAC) with true. cbn [andb].
  destruct (Z.eqb_spec x IAC); [done|]. destruct (Z.eqb_spec x SB); [done|].
  by rewrite Hn.
Qed.

Lemma unknown_command_dropped_witness :
  handle_rfc2217 ([IAC; 241] ++ [65; 66]) proxy0 = handle_rfc2217 [65; 66] proxy0.
Proof.
  apply (unknown_command_dropped 241 [65; 66] proxy0); [done|done|reflexivity].
Defined.

(** X4.  Framing isolation: a complete COM-Port-Option subnegotiation
    (subcommand byte other than [0xFF], no [IAC SE] pair inside the
    payload) contributes no byte to the application data, and its
    subcommand and payload are handed to [_handle_com_port_option]
    before the bytes that follow it are looked at. *)
Theorem subnegotiation_isolated (subcmd : Z) (payload rest : list Z) (p : Proxy) :
  subcmd <> IAC ->
  find payload IAC SE 0 = None ->
  handle_rfc2217 (request_frame subcmd payload ++ rest) p =
    handle_rfc2217 rest (_handle_com_port_option subcmd payload p) /\
  fst <$> handle_rfc2217 (request_frame subcmd payload ++ rest) p =
    fst <$> handle_rfc2217 rest p.
Proof.
  intros Hs Hf. rewrite handle_request_frame by done. split; [done|].
  apply handle_rfc2217_output_proxy_irrelevant.
Qed.

Lemma subnegotiation_isolated_witness :
  handle_rfc2217 (request_frame 5 [8] ++ [65]) proxy0 =
    handle_rfc2217 [65] (_handle_com_port_option 5 [8] proxy0) /\
  fst <$> handle_rfc2217 (request_frame 5 [8] ++ [65]) proxy0 =
    fst <$> handle_rfc2217 [65] proxy0.
Proof.
  apply (subnegotiation_isolated 5 [8] [65] proxy0); [done|reflexivity].
Defined.

(** X5.  [handle_rfc2217] returns on every buffer, and the application
    data it returns is never longer than the buffer it was given. *)
Theorem output_no_longer_than_input (data : list Z) (p : Proxy) :
  exists out p', handle_rfc2217 data p = Some (out, p') /\
                 (length out <= length data)%nat.
Proof.
  destruct (handle_loop_total (length data) data (mkCursor 0 [] p)) as [r Hr];
    [cbn [idx]; lia|].
  exists (output r), (proxy r). split; [by apply (handle_rfc2217_loop (length data))|].
  destruct (handle_loop_growth _ _ _ _ Hr) as [Hg Hb]. cbn [idx output length] in *.
  specialize (Hb ltac:(lia)). lia.
Qed.

(** X6.  A call never detaches or attaches the client, never removes a
    reply already sent or a log line already written, and sends nothing
    when no client is attached. *)
Theorem call_only_adds (data out : list Z) (p p' : Proxy) :
  handle_rfc2217 data p = Some (out, p') ->
  client_socket p' = client_socket p /\
  sent p `prefix_of` sent p' /\
  logged p `prefix_of` logged p' /\
  (client_socket p = false -> sent p' = sent p).
Proof.
  unfold handle_rfc2217.
  destruct (handle_loop (length data) data (mkCursor 0 [] p)) as [r|] eqn:Hr; [|done].
  intros [= <- <-]. apply (extends_handle_loop _ _ _ _ Hr).
Qed.

Lemma call_only_adds_witness :
  client_socket (mkProxy serial0 true [[255; 250; 44; 105; 8; 255; 240]] [LogDTR true])
    = client_socket proxy0 /\
  sent proxy0 `prefix_of`
    sent (mkProxy serial0 true [[255; 250; 44; 105; 8; 255; 240]] [LogDTR true]) /\
  logged proxy0 `prefix_of`
    logged (mkProxy serial0 true [[255; 250; 44; 105; 8; 255; 240]] [LogDTR true]) /\
  (client_socket proxy0 = false ->
   sent (mkProxy serial0 true [[255; 250; 44; 105; 8; 255; 240]] [LogDTR true])
     = sent proxy0).
Proof.
  apply (call_only_adds [255; 250; 44; 5; 8; 255; 240] [] proxy0). reflexivity.
Defined.

(** X7.  A COM-Port-Option subnegotiation without a terminating
    [IAC SE] in the buffer is not treated as a frame: only [IAC SB] is
    dropped, and the option byte and what follows are parsed as if they
    had come alone. *)
Theorem unterminated_subnegotiation (tail : list Z) (p : Proxy) :
  find (IAC :: SB :: COM_PORT_OPTION :: tail) IAC SE 3 = None ->
  handle_rfc2217 ([IAC; SB] ++ COM_PORT_OPTION :: tail) p =
  handle_rfc2217 (COM_PORT_OPTION :: tail) p.
Proof.
  intros Hf.
  rewrite (handle_head [IAC; SB] (COM_PORT_OPTION :: tail) p [] p); [|cbn; lia|].
  { by destruct (handle_rfc2217 _ p) as [[]|]. }
  unfold loop_body. cbn [idx output proxy Nat.add app length]. unfold byte_at.
  cbn [nth Nat.ltb Nat.leb]. rewrite Hf. reflexivity.
Qed.

Lemma unterminated_subnegotiation_witness :
  handle_rfc2217 ([IAC; SB] ++ COM_PORT_OPTION :: [5; 8]) proxy0 =
  handle_rfc2217 (COM_PORT_OPTION :: [5; 8]) proxy0.
Proof. apply (unterminated_subnegotiation [5; 8] proxy0). reflexivity. Defined.

(** X8.  SET_CONTROL with a client attached: the reply always echoes
    the requested control byte; 8 and 9 switch DTR on and off, 11 and 12
    switch RTS on and off, any other value changes no line; baudrate,
    data size, parity and stop bits are never touched. *)
Theorem set_control_lines (c : Z) (more : list Z) (p : Proxy) :
  client_socket p = true ->
  sent (_handle_com_port_option SET_CONTROL (c :: more) p)
    = sent p ++ [reply_frame 105 [c]] /\
  dtr (serial (_handle_com_port_option SET_CONTROL (c :: more) p))
    = (if c =? 8 then true else if c =? 9 then false else dtr (serial p)) /\
  rts (serial (_handle_com_port_option SET_CONTROL (c :: more) p))
    = (if c =? 11 then true else if c =? 12 then false else rts (serial p)) /\
  baudrate (serial (_handle_com_port_option SET_CONTROL (c :: more) p))
    = baudrate (serial p) /\
  bytesize (serial (_handle_com_port_option SET_CONTROL (c :: more) p))
    = bytesize (serial p) /\
  parity (serial (_handle_com_port_option SET_CONTROL (c :: more) p))
    = parity (serial p) /\
  stopbits (serial (_handle_com_port_option SET_CONTROL (c :: more) p))
    = stopbits (serial p).
Proof.
  intros Hc.
  assert (E : _handle_com_port_option SET_CONTROL (c :: more) p =
    if c =? 8 then
      _send_com_port_option 105 [8] (log (LogDTR true) (with_serial (set_dtr true) p))
    else if c =? 9 then
      _send_com_port_option 105 [9] (log (LogDTR false) (with_serial (set_dtr false) p))
    else if c =? 11 then
      _send_com_port_option 105 [11] (log (LogRTS true) (with_serial (set_rts true) p))
    else if c =? 12 then
      _send_com_port_option 105 [12] (log (LogRTS false) (with_serial (set_rts false) p))
    else _send_com_port_option 105 [c] p) by reflexivity.
  rewrite E. clear E.
  destruct (Z.eqb_spec c 8) as [->|N8];
    [|destruct (Z.eqb_spec c 9) as [->|N9];
      [|destruct (Z.eqb_spec c 11) as [->|N11];
        [|destruct (Z.eqb_spec c 12) as [->|N12]]]];
    rewrite send_com_port_option_connected by done;
    cbn; repeat split; reflexivity.
Qed.

Lemma set_control_lines_witness :
  sent (_handle_com_port_option SET_CONTROL (9 :: []) proxy0)
    = sent proxy0 ++ [reply_frame 105 [9]] /\
  dtr (serial (_handle_com_port_option SET_CONTROL (9 :: []) proxy0))
    = (if 9 =? 8 then true else if 9 =? 9 then false else dtr (serial proxy0)) /\
  rts (serial (_handle_com_port_option SET_CONTROL (9 :: []) proxy0))
    = (if 9 =? 11 then true else if 9 =? 12 then false else rts (serial proxy0)) /\
  baudrate (serial (_handle_com_port_option SET_CONTROL (9 :: []) proxy0))
    = baudrate (serial proxy0) /\
  bytesize (serial (_handle_com_port_option SET_CONTROL (9 :: []) proxy0))
    = bytesize (serial proxy0) /\
  parity (serial (_handle_com_port_option SET_CONTROL (9 :: []) proxy0))
    = parity (serial proxy0) /\
  stopbits (serial (_handle_com_port_option SET_CONTROL (9 :: []) proxy0))
    = stopbits (serial proxy0).
Proof. apply (set_control_lines 9 [] proxy0). reflexivity. Defined.







(** X12.  SET_BAUDRATE with a client attached and a baudrate in force
    that fits 32 bits: a payload value above zero that the open port
    accepts becomes the baudrate, the value zero is a query that changes
    nothing, and in both cases the reply payload is four bytes that
    decode, big-endian, to the baudrate in force after the request. *)
Theorem set_baudrate_reply_decodes (b3 b2 b1 b0 : Z) (more : list Z) (p : Proxy) :
  client_socket p = true ->
  forallb is_byte [b3; b2; b1; b0] = true ->
  0 <= baudrate (serial p) < 2 ^ 32 ->
  (0 < int_from_bytes_big [b3; b2; b1; b0] ->
   accepts_baudrate (serial p) (int_from_bytes_big [b3; b2; b1; b0]) = true) ->
  exists bs,
    baudrate (serial (_handle_com_port_option SET_BAUDRATE (b3 :: b2 :: b1 :: b0 :: more) p))
      = (if 0 <? int_from_bytes_big [b3; b2; b1; b0]
         then int_from_bytes_big [b3; b2; b1; b0] else baudrate (serial p)) /\
    sent (_handle_com_port_option SET_BAUDRATE (b3 :: b2 :: b1 :: b0 :: more) p)
      = sent p ++ [reply_frame 101 bs] /\
    length bs = 4%nat /\
    int_from_bytes_big bs
      = baudrate (serial (_handle_com_port_option SET_BAUDRATE
                            (b3 :: b2 :: b1 :: b0 :: more) p)).
Proof.
  intros Hc Hb Hr Hacc.
  assert (E : _handle_com_port_option SET_BAUDRATE (b3 :: b2 :: b1 :: b0 :: more) p =
    let baud := int_from_bytes_big [b3; b2; b1; b0] in
    if (0 <? baud) && negb (accepts_baudrate (serial p) baud) then
      log LogError (with_serial (set_baudrate baud) p)
    else
      let p1 := if 0 <? baud
                then log (LogBaudrate baud) (with_serial (set_baudrate baud) p)
                else p in
      match int_to_bytes4_big (baudrate (serial p1)) with
      | Some bs => _send_com_port_option 101 bs p1
      | None => log LogError p1
      end) by reflexivity.
  rewrite E. clear E. cbn zeta.
  cbn [forallb] in Hb.
  apply andb_prop in Hb as [H3 Hb]. apply andb_prop in Hb as [H2 Hb].
  apply andb_prop in Hb as [H1 Hb]. apply andb_prop in Hb as [H0 _].
  destruct (Z.ltb_spec 0 (int_from_bytes_big [b3; b2; b1; b0])) as [Hpos|Hpos];
    cbn [andb].
  - rewrite (Hacc Hpos). cbn [negb]. exists [b3; b2; b1; b0].
    cbn [log with_serial serial set_baudrate baudrate].
    rewrite (int_to_from_bytes4 b3 b2 b1 b0 H3 H2 H1 H0).
    rewrite send_com_port_option_connected by done. by cbn.
  - set (n := baudrate (serial p)) in *.
    exists [ (n / 2 ^ 24) mod 256; (n / 2 ^ 16) mod 256; (n / 2 ^ 8) mod 256; n mod 256 ].
    unfold int_to_bytes4_big.
    destruct (Z.leb_spec 0 n); [|lia]. destruct (Z.ltb_spec n (2 ^ 32)); [|lia].
    cbn [andb]. rewrite send_com_port_option_connected by done.
    cbn [send serial sent baudrate]. fold n.
    split; [done|]. split; [done|]. split; [done|].
    unfold int_from_bytes_big. cbn [fold_left].
    change (2 ^ 24) with 16777216. change (2 ^ 16) with 65536.
    change (2 ^ 8) with 256. change (2 ^ 32) with 4294967296 in *.
    Z.to_euclidean_division_equations. lia.
Qed.

Lemma set_baudrate_reply_decodes_witness :
  exists bs,
    baudrate (serial (_handle_com_port_option SET_BAUDRATE (0 :: 0 :: 37 :: 128 :: []) proxy0))
      = (if 0 <? int_from_bytes_big [0; 0; 37; 128]
         then int_from_bytes_big [0; 0; 37; 128] else baudrate (serial proxy0)) /\
    sent (_handle_com_port_option SET_BAUDRATE (0 :: 0 :: 37 :: 128 :: []) proxy0)
      = sent proxy0 ++ [reply_frame 101 bs] /\
    length bs = 4%nat /\
    int_from_bytes_big bs
      = baudrate (serial (_handle_com_port_option SET_BAUDRATE
                            (0 :: 0 :: 37 :: 128 :: []) proxy0)).
Proof.
  apply (set_baudrate_reply_decodes 0 0 37 128 [] proxy0);
    [reflexivity | reflexivity | cbn; lia | intros _; reflexivity].
Defined.

(** X29.  SET_BAUDRATE with a value above zero that the open port
    refuses (the baudrate setter raises): no reply is sent, the error is
    logged, and "Baudrate changed" is not. *)
Theorem refused_baudrate_not_acknowledged
    (b3 b2 b1 b0 : Z) (more : list Z) (p : Proxy) :
  0 < int_from_bytes_big [b3; b2; b1; b0] ->
  accepts_baudrate (serial p) (int_from_bytes_big [b3; b2; b1; b0]) = false ->
  sent (_handle_com_port_option SET_BAUDRATE (b3 :: b2 :: b1 :: b0 :: more) p)
    = sent p /\
  logged (_handle_com_port_option SET_BAUDRATE (b3 :: b2 :: b1 :: b0 :: more) p)
    = logged p ++ [LogError].
Proof.
  intros Hpos Hacc.
  assert (E : _handle_com_port_option SET_BAUDRATE (b3 :: b2 :: b1 :: b0 :: more) p =
    let baud := int_from_bytes_big [b3; b2; b1; b0] in
    if (0 <? baud) && negb (accepts_baudrate (serial p) baud) then
      log LogError (with_serial (set_baudrate baud) p)
    else
      let p1 := if 0 <? baud
                then log (LogBaudrate baud) (with_serial (set_baudrate baud) p)
                else p in
      match int_to_bytes4_big (baudrate (serial p1)) with
      | Some bs => _send_com_port_option 101 bs p1
      | None => log LogError p1
      end) by reflexivity.
  rewrite E. clear E. cbn zeta. rewrite Hacc.
  destruct (Z.ltb_spec 0 (int_from_bytes_big [b3; b2; b1; b0])); [|lia].
  by cbn.
Qed.

Lemma refused_baudrate_not_acknowledged_witness :
  sent (_handle_com_port_option SET_BAUDRATE (128 :: 0 :: 0 :: 0 :: []) proxy0)
    = sent proxy0 /\
  logged (_handle_com_port_option SET_BAUDRATE (128 :: 0 :: 0 :: 0 :: []) proxy0)
    = logged proxy0 ++ [LogError].
Proof.
  apply (refused_baudrate_not_acknowledged 128 0 0 0 [] proxy0); reflexivity.
Defined.

(** X13.  A subcommand of 156 or more has no reply: [subcmd + 100] does
    not fit a byte, building the frame fails, and the failure is
    swallowed.  The proxy is left exactly as it was. *)
Theorem large_subcommand_ignored (subcmd : Z) (data : list Z) (p : Proxy) :
  156 <= subcmd ->
  _handle_com_port_option subcmd data p = p.
Proof.
  intros Hs. unfold _handle_com_port_option.
  assert (N : forall k, k < 156 -> (subcmd =? k) = false).
  { intros k Hk. destruct (Z.eqb_spec subcmd k); [lia|done]. }
  rewrite (N SET_BAUDRATE), (N SET_DATASIZE), (N SET_PARITY), (N SET_STOPSIZE),
    (N SET_CONTROL), (N SET_LINESTATE_MASK), (N SET_MODEMSTATE_MASK) by done.
  cbn [andb]. unfold _send_com_port_option, bytes_of, is_byte. cbn [forallb].
  destruct (client_socket p); [|done].
  destruct (Z.ltb_spec (subcmd + 100) 256); [lia|].
  by rewrite !andb_false_r.
Qed.

Lemma large_subcommand_ignored_witness :
  _handle_com_port_option 200 [1; 2] proxy0 = proxy0.
Proof. apply (large_subcommand_ignored 200 [1; 2] proxy0). lia. Defined.

End CodecExtras.

(** ** More facts about the supervisor *)

Module SupervisorMoreFacts.
Import PortalV2 Facade SupervisorFacts.

Lemma start_locked_static w dev s :
  label (start_locked w dev s).2 = label s /\
  slot_key (start_locked w dev s).2 = slot_key s /\
  tcp_port (start_locked w dev s).2 = tcp_port s.
Proof.
  unfold start_locked. cbn [running pid devnode tcp_port last_gen].
  repeat (case_match; cbn [snd label slot_key tcp_port]); done.
Qed.

Lemma stop_locked_static w s :
  label (stop_locked w s).2 = label s /\
  slot_key (stop_locked w s).2 = slot_key s /\
  tcp_port (stop_locked w s).2 = tcp_port s.
Proof.
  unfold stop_locked. cbn [running pid].
  case_match; cbn [snd label slot_key tcp_port]; done.
Qed.

Lemma reap_static w s :
  label (reap w s) = label s /\ slot_key (reap w s) = slot_key s /\
  tcp_port (reap w s) = tcp_port s /\ last_gen (reap w s) = last_gen s.
Proof. unfold reap. repeat case_match; done. Qed.

Lemma start_locked_sound w dev s :
  slot_sound s -> slot_sound (start_locked w dev s).2.
Proof.
  intros [Hr Hn]. unfold start_locked, slot_sound.
  cbn [running pid devnode tcp_port last_gen last_error].
  repeat (case_match; cbn [snd running pid devnode last_error]);
    split; try done; auto.
  all: intros _; split; [|done]; by eapply _start_proxy_pid.
Qed.

Lemma stop_locked_sound w s : slot_sound s -> slot_sound (stop_locked w s).2.
Proof.
  intros [Hr Hn]. unfold stop_locked, slot_sound.
  cbn [running pid devnode last_error].
  case_match; cbn [snd running pid devnode last_error]; split; try done; auto.
Qed.

Lemma reap_sound w s : slot_sound s -> slot_sound (reap w s).
Proof.
  intros [Hr Hn]. unfold reap, slot_sound.
  repeat case_match; cbn [running pid devnode last_error]; split; try done; auto.
Qed.

(** An invocation either leaves the portal as it is or replaces the slot
    under its key by the result of [start] or [stop] on that slot. *)
Lemma invoke_cases k c p :
  invoke k c p = p \/
  exists s s', slots p !! k = Some s /\
    invoke k c p = mkPortal (<[k := s']> (slots p)) (host_ip p) /\
    ((exists w dev, s' = (start_locked w dev s).2) \/
     (exists w, s' = (stop_locked w s).2)).
Proof.
  assert (Hstart : forall w dev,
    (start w k dev p).2 = p \/
    exists s s', slots p !! k = Some s /\
      (start w k dev p).2 = mkPortal (<[k := s']> (slots p)) (host_ip p) /\
      ((exists w dev, s' = (start_locked w dev s).2) \/
       (exists w, s' = (stop_locked w s).2))).
  { intros w dev. destruct (slots p !! k) as [s|] eqn:E.
    - right. exists s, (start_locked w dev s).2. split; [done|].
      rewrite (start_known _ _ _ _ _ E). split; [done|]. left. eauto.
    - left. by rewrite start_unknown. }
  assert (Hstop : forall w,
    (stop w k p).2 = p \/
    exists s s', slots p !! k = Some s /\
      (stop w k p).2 = mkPortal (<[k := s']> (slots p)) (host_ip p) /\
      ((exists w dev, s' = (start_locked w dev s).2) \/
       (exists w, s' = (stop_locked w s).2))).
  { intros w. destruct (slots p !! k) as [s|] eqn:E.
    - right. exists s, (stop_locked w s).2. split; [done|].
      rewrite (stop_known _ _ _ _ E). split; [done|]. right. eauto.
    - left. by rewrite stop_unknown. }
  destruct c as [w dev|w|w dev|w]; cbn [invoke].
  - apply Hstart.
  - apply Hstop.
  - destruct (String.eqb_spec k EmptyString) as [->|Hk];
      [by left|].
    destruct (String.eqb_spec dev EmptyString) as [->|Hd].
    { left. unfold hotplug. rewrite (truthy_Some k Hk). cbn.
      by case_bool_decide. }
    rewrite hotplug_add by done. apply Hstart.
  - destruct (String.eqb_spec k EmptyString) as [->|Hk]; [by left|].
    rewrite hotplug_remove by done. apply Hstop.
Qed.

Lemma load_entries_app_incomplete good bad rest m :
  ~ complete bad ->
  load_entries (good ++ bad :: rest) m = load_entries good m.
Proof.
  intros Hbad. revert m. induction good as [|e tl IH]; intros m.
  - cbn [app load_entries]. repeat case_match; try done.
    destruct Hbad. unfold complete. eauto.
  - cbn [app load_entries]. repeat case_match; try done; apply IH.
Qed.

Lemma load_entries_lookup es m k :
  Forall complete es ->
  load_entries es m !! k =
  match last (filter (fun e => cfg_slot_key e = Some k) es) with
  | Some e => Some (new_slot (default EmptyString (cfg_label e)) k
                             (default 0 (cfg_tcp_port e)))
  | None => m !! k
  end.
Proof.
  intros H. revert m. induction H as [|e tl He Htl IH]; intros m; [done|].
  destruct He as ([l El] & [k' Ek] & [t Et]).
  cbn [load_entries]. rewrite El, Ek, Et. rewrite IH.
  rewrite filter_cons. destruct (decide (cfg_slot_key e = Some k)) as [D|D].
  - rewrite last_cons.
    destruct (last (filter _ tl)); [done|].
    rewrite Ek in D. injection D as ->. rewrite lookup_insert_eq.
    by rewrite El, Et.
  - destruct (last (filter _ tl)); [done|].
    rewrite lookup_insert_ne; [done|]. intros ->. by rewrite Ek in D.
Qed.

(** Every slot the loader stores is stopped and clean, and sits under
    its own key. *)
Lemma load_entries_fresh es m k s :
  (forall k s, m !! k = Some s -> exists l t, s = new_slot l k t) ->
  load_entries es m !! k = Some s -> exists l t, s = new_slot l k t.
Proof.
  revert m. induction es as [|e tl IH]; intros m Hm; cbn [load_entries]; [by apply Hm|].
  repeat case_match; try by apply Hm.
  apply IH. intros k' s'. rewrite lookup_insert.
  case_decide as D; [|by apply Hm]. intros [= <-]. subst. eauto.
Qed.

Lemma load_config_fresh f k s :
  _load_config f !! k = Some s -> exists l t, s = new_slot l k t.
Proof.
  destruct f; cbn [_load_config]; try by rewrite lookup_empty.
  apply load_entries_fresh. intros k' s'. by rewrite lookup_empty.
Qed.

End SupervisorMoreFacts.

(** ** Further properties of the supervisor *)

Module SupervisorExtras.
Import PortalV2 Samples Facade SupervisorFacts SupervisorMoreFacts.

(** X14.  Loading the configuration stops at the first entry that
    lacks [label], [slot_key] or [tcp_port]: the entries before it are
    kept, and every entry after it is dropped, complete or not. *)
Theorem malformed_entry_ends_loading (good rest : list SlotCfg) (bad : SlotCfg) :
  ~ complete bad ->
  _load_config (FileParsed (good ++ bad :: rest)) = _load_config (FileParsed good).
Proof. intros H. by apply load_entries_app_incomplete. Qed.

Lemma malformed_entry_ends_loading_witness :
  _load_config (FileParsed ([mkCfg (Some "A") (Some "usb-1") (Some 4001)]
                            ++ mkCfg (Some "B") None (Some 4002)
                            :: [mkCfg (Some "C") (Some "usb-3") (Some 4003)]))%string
  = _load_config (FileParsed [mkCfg (Some "A") (Some "usb-1") (Some 4001)])%string.
Proof.
  apply (malformed_entry_ends_loading
           [mkCfg (Some "A") (Some "usb-1") (Some 4001)]
           [mkCfg (Some "C") (Some "usb-3") (Some 4003)]
           (mkCfg (Some "B") None (Some 4002)))%string.
  intros (_ & [x Hx] & _). discriminate Hx.
Defined.

(** X15.  After loading a configuration whose entries are all complete,
    looking up a slot_key gives a fresh slot (stopped, no pid, no
    devnode, generation 0) built from the last entry with that key, and
    nothing for a key no entry has. *)
Theorem config_lookup_last_entry (es : list SlotCfg) (k : string) :
  Forall complete es ->
  _load_config (FileParsed es) !! k =
  match last (filter (fun e => cfg_slot_key e = Some k) es) with
  | Some e => Some (new_slot (default EmptyString (cfg_label e)) k
                             (default 0 (cfg_tcp_port e)))
  | None => None
  end.
Proof.
  intros H. cbn [_load_config]. rewrite load_entries_lookup by done.
  by rewrite lookup_empty.
Qed.

Lemma config_lookup_last_entry_witness :
  _load_config (FileParsed [mkCfg (Some "A") (Some "usb-1") (Some 4001);
                            mkCfg (Some "B") (Some "usb-1") (Some 4002)])%string
    !! "usb-1"%string =
  match last (filter (fun e => cfg_slot_key e = Some "usb-1"%string)
                [mkCfg (Some "A") (Some "usb-1") (Some 4001);
                 mkCfg (Some "B") (Some "usb-1") (Some 4002)]%string) with
  | Some e => Some (new_slot (default EmptyString (cfg_label e)) "usb-1"
                             (default 0 (cfg_tcp_port e)))
  | None => None
  end.
Proof.
  apply (config_lookup_last_entry
           [mkCfg (Some "A") (Some "usb-1") (Some 4001);
            mkCfg (Some "B") (Some "usb-1") (Some 4002)]%string "usb-1"%string).
  repeat constructor; cbn; eauto.
Defined.

(** X16.  Whatever requests are served after the configuration was
    loaded ([start], [stop], hotplug events, [get_devices], in any
    order and with any answers of the operating system), the set of
    slots stays the configured one, each slot keeps its label, its key
    and its TCP port, and each slot is sound: running means a usable
    pid, a devnode and no error; stopped means no pid. *)
Theorem served_slots_stay_configured
    (f : ConfigFile) (host : string) (rqs : list Request) (k : string) :
  match _load_config f !! k with
  | None => slots (serve_all rqs (new_portal f host)) !! k = None
  | Some s0 =>
      exists s, slots (serve_all rqs (new_portal f host)) !! k = Some s /\
                label s = label s0 /\ slot_key s = k /\ tcp_port s = tcp_port s0 /\
                slot_sound s
  end.
Proof.
  set (Inv := fun p : Portal => forall k,
    match _load_config f !! k with
    | None => slots p !! k = None
    | Some s0 =>
        exists s, slots p !! k = Some s /\
                  label s = label s0 /\ slot_key s = k /\ tcp_port s = tcp_port s0 /\
                  slot_sound s
    end).
  assert (H0 : Inv (new_portal f host)).
  { intros k'. cbn [new_portal slots].
    destruct (_load_config f !! k') as [s0|] eqn:E; [|done].
    exists s0. destruct (load_config_fresh _ _ _ E) as (l & t & ->).
    refine (conj _ (conj _ (conj _ (conj _ _)))); done. }
  assert (Hstep : forall rq p, Inv p -> Inv (serve rq p)).
  { intros rq p Hp k'. specialize (Hp k') as Hk'. destruct rq as [k0 c|w]; cbn [serve].
    - destruct (invoke_cases k0 c p) as [-> | (s & s' & Hs & -> & Hs')]; [done|].
      cbn [slots]. destruct (decide (k0 = k')) as [->|Hne].
      + rewrite lookup_insert_eq. rewrite Hs in Hk'.
        destruct (_load_config f !! k') as [s0|]; [|done].
        destruct Hk' as (s1 & [= <-] & Hl & Hkey & Hport & Hsound).
        exists s'. split; [done|].
        destruct Hs' as [(w & dev & ->) | (w & ->)].
        * destruct (start_locked_static w dev s) as (-> & -> & ->).
          refine (conj _ (conj _ (conj _ _))); [done|done|done|].
          by apply start_locked_sound.
        * destruct (stop_locked_static w s) as (-> & -> & ->).
          refine (conj _ (conj _ (conj _ _))); [done|done|done|].
          by apply stop_locked_sound.
      + by rewrite lookup_insert_ne.
    - rewrite get_devices_lookup.
      destruct (_load_config f !! k') as [s0|].
      + destruct Hk' as (s & -> & Hl & Hkey & Hport & Hsound).
        exists (reap w s). split; [done|].
        destruct (reap_static w s) as (-> & -> & -> & _).
        refine (conj _ (conj _ (conj _ _))); [done|done|done|].
        by apply reap_sound.
      + by rewrite Hk'. }
  assert (Hall : forall p, Inv p -> Inv (serve_all rqs p)).
  { induction rqs as [|rq tl IH]; intros p Hp; [done|].
    cbn [serve_all fold_left]. apply IH. by apply Hstep. }
  apply (Hall _ H0 k).
Qed.

(** X17.  As long as only [start], [stop] and hotplug events are served
    (no [get_devices]), every slot satisfies the slot invariant of the
    data model: running implies a pid and a devnode, stopped implies
    neither. *)
Theorem start_stop_keep_invariant
    (f : ConfigFile) (host : string) (rqs : list Request) (k : string) (s : SlotState) :
  Forall is_invoke rqs ->
  slots (serve_all rqs (new_portal f host)) !! k = Some s ->
  slot_invariant s.
Proof.
  intros Hrq.
  assert (Hall : forall p,
    (forall k s, slots p !! k = Some s -> slot_invariant s) ->
    forall k s, slots (serve_all rqs p) !! k = Some s -> slot_invariant s).
  { induction Hrq as [|rq tl Hi Htl IH]; intros p Hp; [done|].
    cbn [serve_all fold_left]. apply IH. clear IH.
    destruct rq as [k0 c|w]; [|done]. cbn [serve].
    destruct (invoke_cases k0 c p) as [-> | (s1 & s' & Hs & -> & Hs')]; [done|].
    intros k' s2. cbn [slots]. rewrite lookup_insert. case_decide as D.
    - intros [= <-]. specialize (Hp _ _ Hs).
      destruct Hs' as [(w & dev & ->) | (w & ->)].
      + by apply start_locked_invariant.
      + by apply stop_locked_invariant.
    - apply Hp. }
  apply Hall. intros k' s' E. cbn [new_portal slots] in E.
  destruct (load_config_fresh _ _ _ E) as (l & t & ->).
  split; cbn; [discriminate|done].
Qed.

Lemma start_stop_keep_invariant_witness :
  slot_invariant
    (mkSlot "A" "usb-1" 4001 true (Some 77) (Some "/dev/ttyUSB0"%string) 1 None).
Proof.
  apply (start_stop_keep_invariant
           (FileParsed [mkCfg (Some "A") (Some "usb-1") (Some 4001)])%string
           "10.0.0.1"%string
           [Invoke "usb-1" (CallStart (healthy_world 77) "/dev/ttyUSB0")]
           "usb-1"%string).
  - repeat constructor.
  - reflexivity.
Defined.

(** X18.  A [start] that does not find the slot already healthy on the
    requested devnode and whose proxy does not come up (no executable,
    device not ready, spawn error, early exit, port never listening)
    returns [success = false] with the reason, and leaves the slot
    record stopped with no pid and no devnode, the reason in
    [last_error], and [last_gen] one higher, whatever pid and devnode
    the record held before. *)
Theorem failed_start_clears_slot
    (w : World) (k dev msg : string) (p : Portal) (s : SlotState) :
  slots p !! k = Some s ->
  healthy w dev s = false ->
  _start_proxy w s dev = inr msg ->
  start w k dev p =
  (mkResponse false None None None None (Some msg) None,
   mkPortal (<[k := mkSlot (label s) (slot_key s) (tcp_port s) false None None
                          (last_gen s + 1) (Some msg)]> (slots p))
            (host_ip p)).
Proof.
  intros Hs Hh Hp. rewrite (start_known _ _ _ _ _ Hs).
  assert (E : start_locked w dev s =
    (mkResponse false None None None None (Some msg) None,
     mkSlot (label s) (slot_key s) (tcp_port s) false None None
            (last_gen s + 1) (Some msg))).
  { unfold start_locked. cbn [running pid devnode tcp_port last_gen].
    unfold healthy in Hh. rewrite Hh.
    assert (Hp' : forall s', _start_proxy w s' dev = inr msg) by (intros; exact Hp).
    destruct (running s && pid_truthy (pid s)); rewrite Hp'; reflexivity. }
  by rewrite E.
Qed.

Lemma failed_start_clears_slot_witness :
  start dead_world "usb-1" "/dev/ttyUSB9" portal_running =
  (mkResponse false None None None None
     (Some "Device /dev/ttyUSB9 not ready after settle timeout"%string) None,
   mkPortal (<["usb-1"%string :=
                mkSlot (label slot_running) (slot_key slot_running)
                       (tcp_port slot_running) false None None
                       (last_gen slot_running + 1)
                       (Some "Device /dev/ttyUSB9 not ready after settle timeout"%string)]>
               (slots portal_running))
            (host_ip portal_running)).
Proof.
  apply (failed_start_clears_slot dead_world "usb-1" "/dev/ttyUSB9"
           "Device /dev/ttyUSB9 not ready after settle timeout"
           portal_running slot_running); reflexivity.
Defined.

(** X19.  [stop] on a configured, sound slot always answers
    [success = true, running = false] and leaves the slot stopped
    without a pid; if the slot was running, its devnode and its error
    are cleared too.  A second [stop] answers the same and changes
    nothing but [last_gen]. *)
Theorem stop_clears_and_repeats
    (w w' : World) (k : string) (p : Portal) (s : SlotState) :
  slots p !! k = Some s ->
  slot_sound s ->
  exists s1,
    stop w k p = (mkResponse true (Some false) None None None None None,
                  mkPortal (<[k := s1]> (slots p)) (host_ip p)) /\
    running s1 = false /\ pid s1 = None /\
    (running s = true -> devnode s1 = None /\ last_error s1 = None) /\
    last_gen s1 = last_gen s + 1 /\
    stop w' k (stop w k p).2 =
      (mkResponse true (Some false) None None None None None,
       mkPortal (<[k := mkSlot (label s1) (slot_key s1) (tcp_port s1) (running s1)
                               (pid s1) (devnode s1) (last_gen s1 + 1)
                               (last_error s1)]> (slots p))
                (host_ip p)).
Proof.
  intros Hs [Hr Hn].
  exists (stop_locked w s).2.
  assert (E : stop_locked w s =
    (mkResponse true (Some false) None None None None None, (stop_locked w s).2)).
  { unfold stop_locked. by case_match. }
  rewrite (stop_known _ _ _ _ Hs). rewrite E at 1. cbn [fst snd].
  assert (Hshape : running (stop_locked w s).2 = false /\
                   pid (stop_locked w s).2 = None /\
                   (running s = true -> devnode (stop_locked w s).2 = None /\
                                        last_error (stop_locked w s).2 = None)).
  { unfold stop_locked. cbn [running pid].
    destruct (running s) eqn:R.
    - destruct (Hr eq_refl) as (Ht & _ & _). rewrite Ht. cbn. done.
    - cbn. rewrite (Hn eq_refl). done. }
  destruct Hshape as (H1 & H2 & H3).
  split; [done|]. split; [done|]. split; [done|]. split; [done|].
  split; [apply stop_locked_gen|].
  rewrite (stop_known w' k _ (stop_locked w s).2) by (cbn [slots]; apply lookup_insert_eq).
  cbn [slots host_ip]. rewrite insert_insert_eq.
  f_equal; [|f_equal; f_equal]; unfold stop_locked at 1;
    cbn [running pid]; rewrite H1; reflexivity.
Qed.

Lemma stop_clears_and_repeats_witness :
  exists s1,
    stop dead_world "usb-1" portal_running =
      (mkResponse true (Some false) None None None None None,
       mkPortal (<["usb-1"%string := s1]> (slots portal_running))
                (host_ip portal_running)) /\
    running s1 = false /\ pid s1 = None /\
    (running slot_running = true -> devnode s1 = None /\ last_error s1 = None) /\
    last_gen s1 = last_gen slot_running + 1 /\
    stop dead_world "usb-1" (stop dead_world "usb-1" portal_running).2 =
      (mkResponse true (Some false) None None None None None,
       mkPortal (<["usb-1"%string :=
                    mkSlot (label s1) (slot_key s1) (tcp_port s1) (running s1)
                           (pid s1) (devnode s1) (last_gen s1 + 1)
                           (last_error s1)]> (slots portal_running))
                (host_ip portal_running)).
Proof.
  apply (stop_clears_and_repeats dead_world dead_world "usb-1"
           portal_running slot_running).
  - reflexivity.
  - split; cbn; [intros _; repeat split; discriminate | discriminate].
Defined.

(** X20.  An invocation on one slot key never touches the slot stored
    under another key, and never changes [host_ip]. *)
Theorem other_slots_untouched (k k' : string) (c : Invocation) (p : Portal) :
  k' <> k ->
  slots (invoke k c p) !! k' = slots p !! k' /\
  host_ip (invoke k c p) = host_ip p.
Proof.
  intros Hne.
  destruct (invoke_cases k c p) as [-> | (s & s' & _ & -> & _)]; [done|].
  cbn [slots host_ip]. by rewrite lookup_insert_ne.
Qed.

Lemma other_slots_untouched_witness :
  slots (invoke "usb-1" (CallStart (healthy_world 77) "/dev/ttyUSB0") portal_idle)
    !! "usb-2"%string = slots portal_idle !! "usb-2"%string /\
  host_ip (invoke "usb-1" (CallStart (healthy_world 77) "/dev/ttyUSB0") portal_idle)
    = host_ip portal_idle.
Proof.
  apply (other_slots_untouched "usb-1" "usb-2"
           (CallStart (healthy_world 77) "/dev/ttyUSB0") portal_idle).
  discriminate.
Defined.

(** X21.  [get_devices] is idempotent while the operating system gives
    the same answers: a second call returns the same report and leaves
    the portal as the first call left it.  It never changes a
    [last_gen]. *)
Theorem get_devices_idempotent (w : World) (p : Portal) :
  get_devices w (get_devices w p).2 = get_devices w p /\
  (forall k, last_gen <$> slots (get_devices w p).2 !! k = last_gen <$> slots p !! k).
Proof.
  assert (R : forall s, reap w (reap w s) = reap w s).
  { intros s. unfold reap.
    destruct (running s && pid_truthy (pid s)) eqn:A; [|by rewrite A].
    destruct (negb (is_process_alive w (pid_value (pid s)))) eqn:B; [done|].
    by rewrite A, B. }
  split.
  - assert (E : reap w <$> (reap w <$> slots p) = reap w <$> slots p).
    { rewrite <- map_fmap_compose. apply map_fmap_ext. intros k s _. apply R. }
    unfold get_devices. cbn [snd slots host_ip]. by rewrite E.
  - intros k. rewrite get_devices_lookup.
    destruct (slots p !! k) as [s|]; [|done]. cbn.
    by destruct (reap_static w s) as (_ & _ & _ & ->).
Qed.

(** X22.  When every slot is sound, a slot that [get_devices] reports as
    running has a pid whose process was alive at that moment, and comes
    with its [rfc2217://host:port] URL; a slot reported as stopped has
    no pid and no URL. *)
Theorem get_devices_reports_live (w : World) (p : Portal) (k : string) (i : SlotInfo) :
  (forall k s, slots p !! k = Some s -> slot_sound s) ->
  (get_devices w p).1.1 !! k = Some i ->
  if i_running i
  then exists n, i_pid i = Some n /\ is_process_alive w n = true /\
                 i_url i = Some ("rfc2217://" +:+ host_ip p +:+ ":"
                                 +:+ pretty (i_tcp_port i))%string
  else i_pid i = None /\ i_url i = None.
Proof.
  intros Hsound. unfold get_devices. cbn [fst].
  rewrite !lookup_fmap.
  destruct (slots p !! k) as [s|] eqn:E; [|done]. cbn. intros [= <-].
  destruct (Hsound _ _ E) as [Hr Hn].
  unfold snapshot, reap. cbn [i_running i_pid i_url i_tcp_port].
  destruct (running s) eqn:R.
  - destruct (Hr eq_refl) as (Ht & _ & _). rewrite Ht. cbn [andb].
    destruct (pid s) as [n|] eqn:Ep; [|done]. cbn [pid_value default].
    unfold pid_value. cbn.
    destruct (is_process_alive w n) eqn:A; cbn; rewrite ?R, ?Ep; eauto.
  - cbn [andb]. rewrite R. by rewrite (Hn eq_refl).
Qed.

Lemma get_devices_reports_live_witness :
  if i_running (mkInfo "A" "usb-1" 4001 false (Some "/dev/ttyUSB0"%string) None None 1
                       (Some "Process died"%string))
  then exists n, i_pid (mkInfo "A" "usb-1" 4001 false (Some "/dev/ttyUSB0"%string) None
                               None 1 (Some "Process died"%string)) = Some n /\
                 is_process_alive dead_world n = true /\
                 i_url (mkInfo "A" "usb-1" 4001 false (Some "/dev/ttyUSB0"%string) None
                               None 1 (Some "Process died"%string))
                 = Some ("rfc2217://" +:+ host_ip portal_running +:+ ":"
                         +:+ pretty (i_tcp_port
                               (mkInfo "A" "usb-1" 4001 false
                                  (Some "/dev/ttyUSB0"%string) None None 1
                                  (Some "Process died"%string))))%string
  else i_pid (mkInfo "A" "usb-1" 4001 false (Some "/dev/ttyUSB0"%string) None None 1
                     (Some "Process died"%string)) = None /\
       i_url (mkInfo "A" "usb-1" 4001 false (Some "/dev/ttyUSB0"%string) None None 1
                     (Some "Process died"%string)) = None.
Proof.
  apply (get_devices_reports_live dead_world portal_running "usb-1").
  - intros k s. unfold portal_running. cbn [slots].
    rewrite lookup_singleton. case_decide; [|done]. intros [= <-].
    split; cbn; [intros _; repeat split; discriminate | discriminate].
  - reflexivity.
Defined.

(** X23.  [POST /api/start] and a hotplug [add] event for the same slot
    key and devnode make the same call to [start]: same result body,
    same portal afterwards.  They differ in the HTTP status only:
    [/api/start] answers 400 when the start failed, the hotplug endpoint
    answers 200 whatever the outcome. *)
Theorem api_start_and_hotplug_add
    (w : World) (k dev : string) (d1 d2 : gmap string string) (p : Portal) :
  k <> EmptyString -> dev <> EmptyString ->
  d1 !! "slot_key"%string = Some k -> d1 !! "devnode"%string = Some dev ->
  d2 !! "action"%string = Some "add"%string ->
  d2 !! "devnode"%string = Some dev -> d2 !! "id_path"%string = Some k ->
  do_POST w "/api/start" (Some d1) p =
    (Result (if success (start w k dev p).1 then 200 else 400) (start w k dev p).1,
     (start w k dev p).2) /\
  do_POST w "/api/hotplug" (Some d2) p =
    (Result 200 (start w k dev p).1, (start w k dev p).2).
Proof.
  intros Hk Hd E1 E2 E3 E4 E5. split.
  - unfold do_POST. rewrite bool_decide_eq_true_2 by done.
    rewrite E1, E2. unfold api_start.
    rewrite (truthy_Some k Hk), (truthy_Some dev Hd). cbn [negb orb default].
    unfold id. by destruct (start w k dev p).
  - unfold do_POST.
    rewrite (bool_decide_eq_false_2 (_ = "/api/start"%string)) by done.
    rewrite (bool_decide_eq_false_2 (_ = "/api/stop"%string)) by done.
    rewrite bool_decide_eq_true_2 by done.
    rewrite E3, E4, E5. unfold hotplug.
    rewrite (truthy_Some k Hk), (truthy_Some dev Hd).
    cbn [truthy String.eqb Ascii.eqb Bool.eqb negb orb default]. unfold id.
    rewrite bool_decide_eq_true_2 by done.
    by destruct (start w k dev p).
Qed.

Lemma api_start_and_hotplug_add_witness :
  do_POST dead_world "/api/start"
    (Some (<["slot_key" := "usb-1"]> {["devnode" := "/dev/ttyUSB0"]}))%string
    portal_idle =
    (Result (if success (start dead_world "usb-1" "/dev/ttyUSB0" portal_idle).1
             then 200 else 400)
            (start dead_world "usb-1" "/dev/ttyUSB0" portal_idle).1,
     (start dead_world "usb-1" "/dev/ttyUSB0" portal_idle).2) /\
  do_POST dead_world "/api/hotplug"
    (Some (<["action" := "add"]>
             (<["id_path" := "usb-1"]> {["devnode" := "/dev/ttyUSB0"]})))%string
    portal_idle =
    (Result 200 (start dead_world "usb-1" "/dev/ttyUSB0" portal_idle).1,
     (start dead_world "usb-1" "/dev/ttyUSB0" portal_idle).2).
Proof.
  apply (api_start_and_hotplug_add dead_world "usb-1" "/dev/ttyUSB0"
           (<["slot_key" := "usb-1"]> {["devnode" := "/dev/ttyUSB0"]})
           (<["action" := "add"]>
              (<["id_path" := "usb-1"]> {["devnode" := "/dev/ttyUSB0"]})))%string;
    try reflexivity; discriminate.
Defined.

(** X24.  A POST that is answered with an error body (a body that does
    not parse, a missing or empty field, an unknown action, an unknown
    path) has status 400 or 404 and leaves the portal exactly as it
    was. *)
Theorem rejected_post_changes_nothing
    (w : World) (path msg : string) (data : option (gmap string string))
    (p p' : Portal) (status : Z) :
  do_POST w path data p = (Error status msg, p') ->
  p' = p /\ (status = 400 \/ status = 404).
Proof.
  unfold do_POST, api_start, api_stop, hotplug.
  repeat (case_match; try (intros [= <- <- <-]; by auto); try done).
Qed.

Lemma rejected_post_changes_nothing_witness :
  do_POST dead_world "/api/reboot" (Some ∅) portal_idle
    = (Error 404 "Not found", portal_idle) /\
  portal_idle = portal_idle /\ (404 = 400 \/ 404 = 404).
Proof.
  split; [reflexivity|].
  apply (rejected_post_changes_nothing dead_world "/api/reboot" "Not found"
           (Some ∅) portal_idle portal_idle 404).
  reflexivity.
Defined.

(** X25.  Hot-replug of one slot: after [start] on one devnode, [stop],
    and a [start] on another devnode whose proxy comes up, the slot
    runs the new child on the new devnode and on the TCP port it was
    configured with, the answer carries that port and
    [restarted = true], and [last_gen] has gone up by three. *)
Theorem hot_replug_same_port
    (w1 w2 w3 : World) (k d0 d1 : string) (p : Portal) (s : SlotState) (child : Z) :
  slots p !! k = Some s ->
  _start_proxy w3 s d1 = inl child ->
  (start w3 k d1 (stop w2 k (start w1 k d0 p).2).2).1 =
    mkResponse true (Some true) (Some true) (Some (tcp_port s)) (Some child) None None /\
  slots (start w3 k d1 (stop w2 k (start w1 k d0 p).2).2).2 !! k =
    Some (mkSlot (label s) (slot_key s) (tcp_port s) true (Some child) (Some d1)
                 (last_gen s + 3) None).
Proof.
  intros Hs Hp.
  rewrite (start_known _ _ _ _ _ Hs). cbn [snd].
  set (s1 := (start_locked w1 d0 s).2).
  rewrite (stop_known w2 k _ s1) by (cbn [slots]; apply lookup_insert_eq).
  cbn [snd slots host_ip].
  set (s2 := (stop_locked w2 s1).2).
  rewrite (start_known w3 k d1 _ s2) by (cbn [slots]; apply lookup_insert_eq).
  cbn [fst snd slots]. rewrite lookup_insert_eq.
  destruct (start_locked_static w1 d0 s) as (L1 & K1 & T1).
  destruct (stop_locked_static w2 s1) as (L2 & K2 & T2).
  pose proof (start_locked_gen w1 d0 s) as G1.
  pose proof (stop_locked_gen w2 s1) as G2.
  fold s1 in L1, K1, T1, G1. fold s2 in L2, K2, T2, G2.
  assert (Hoff : running s2 && pid_truthy (pid s2) = false).
  { subst s2. unfold stop_locked. cbn [running pid].
    destruct (negb (running s1) || negb (pid_truthy (pid s1))) eqn:C; cbn [snd running pid].
    - destruct (running s1), (pid_truthy (pid s1)); done.
    - done. }
  assert (Hp' : forall s', _start_proxy w3 s' d1 = inl child) by (intros; exact Hp).
  assert (E : start_locked w3 d1 s2 =
    (mkResponse true (Some true) (Some true) (Some (tcp_port s2)) (Some child) None None,
     mkSlot (label s2) (slot_key s2) (tcp_port s2) true (Some child) (Some d1)
            (last_gen s2 + 1) None)).
  { unfold start_locked. cbn [running pid devnode tcp_port last_gen].
    rewrite Hoff. cbn [andb]. rewrite Hp'. reflexivity. }
  rewrite E. cbn [fst snd]. rewrite L2, K2, T2, L1, K1, T1, G2, G1.
  split; [done|]. do 2 f_equal. lia.
Qed.

Lemma hot_replug_same_port_witness :
  (start (healthy_world 78) "usb-1" "/dev/ttyUSB1"
     (stop dead_world "usb-1"
        (start (healthy_world 77) "usb-1" "/dev/ttyUSB0" portal_idle).2).2).1 =
    mkResponse true (Some true) (Some true) (Some (tcp_port slot_idle)) (Some 78)
               None None /\
  slots (start (healthy_world 78) "usb-1" "/dev/ttyUSB1"
           (stop dead_world "usb-1"
              (start (healthy_world 77) "usb-1" "/dev/ttyUSB0" portal_idle).2).2).2
    !! "usb-1"%string =
    Some (mkSlot (label slot_idle) (slot_key slot_idle) (tcp_port slot_idle) true
                 (Some 78) (Some "/dev/ttyUSB1"%string) (last_gen slot_idle + 3) None).
Proof.
  apply (hot_replug_same_port (healthy_world 77) dead_world (healthy_world 78)
           "usb-1" "/dev/ttyUSB0" "/dev/ttyUSB1" portal_idle slot_idle 78);
    reflexivity.
Defined.

(** X26.  The counts of [get_info]: no request ever changes the number
    of configured slots, and the number of running slots never exceeds
    it. *)
Theorem info_counts (config_file : string) (rqs : list Request) (p : Portal) :
  slots_configured (get_info config_file (serve_all rqs p))
    = slots_configured (get_info config_file p) /\
  (slots_running (get_info config_file (serve_all rqs p))
   <= slots_configured (get_info config_file p))%nat.
Proof.
  assert (Hdom : dom (slots (serve_all rqs p)) = dom (slots p)).
  { revert p. induction rqs as [|rq tl IH]; intros p; [done|].
    cbn [serve_all fold_left]. change (fold_left _ tl ?q) with (serve_all tl q).
    rewrite IH. destruct rq as [k c|w]; cbn [serve].
    - destruct (invoke_cases k c p) as [-> | (s & s' & Hs & -> & _)]; [done|].
      cbn [slots]. apply dom_insert_lookup_L. eauto.
    - unfold get_devices. cbn [snd slots]. apply dom_fmap_L. }
  assert (Hsize : size (slots (serve_all rqs p)) = size (slots p)).
  { by rewrite <- !size_dom, Hdom. }
  unfold get_info. cbn [slots_configured slots_running]. split; [done|].
  rewrite <- Hsize. apply map_subseteq_size, map_filter_subseteq.
Qed.

End SupervisorExtras.

(** ** The log-file name *)

Module LoggerFacts.
Import Stdlib.Strings.Ascii Logger.

Lemma has_char_replace_char c new s :
  new <> c -> has_char c (replace_char c new s) = false.
Proof.
  intros Hn. induction s as [|x tl IH]; [done|]. cbn [replace_char has_char].
  rewrite IH, orb_false_r. destruct (Ascii.eqb_spec x c) as [->|Hx].
  - by apply Ascii.eqb_neq.
  - by apply Ascii.eqb_neq.
Qed.

Lemma has_char_replace_other c old new s :
  new <> c -> has_char c s = false ->
  has_char c (replace_char old new s) = false.
Proof.
  intros Hn. induction s as [|x tl IH]; [done|]. cbn [replace_char has_char].
  intros [Hx Htl]%orb_false_elim. rewrite IH, orb_false_r by done.
  destruct (Ascii.eqb x old); [by apply Ascii.eqb_neq|done].
Qed.

Lemma has_char_str_take c n s :
  has_char c s = false -> has_char c (str_take n s) = false.
Proof.
  revert s. induction n as [|n IH]; intros [|x tl]; try done.
  cbn [str_take has_char]. intros [Hx Htl]%orb_false_elim.
  by rewrite Hx, IH.
Qed.

Lemma has_char_remove_dev c k s :
  has_char c s = false -> has_char c (remove_dev k s) = false.
Proof.
  revert k. induction s as [|x tl IH]; intros k; [done|].
  cbn [has_char]. intros [Hx Htl]%orb_false_elim.
  cbn [remove_dev]. destruct k as [|k]; [|by apply IH].
  destruct (String.prefix _ _); [by apply IH|].
  cbn [has_char]. by rewrite Hx, IH.
Qed.

Lemma has_char_app c s t :
  has_char c (s +:+ t) = has_char c s || has_char c t.
Proof.
  induction s as [|x tl IH]; [done|]. simpl. by rewrite IH, orb_assoc.
Qed.

Lemma length_str_take n s : (String.length (str_take n s) <= n)%nat.
Proof.
  revert s. induction n as [|n IH]; intros [|x tl]; cbn; try lia.
  specialize (IH tl). lia.
Qed.

Lemma length_app_str s t :
  String.length (s +:+ t) = (String.length s + String.length t)%nat.
Proof.
  induction s as [|x tl IH]; [done|]. simpl. by rewrite IH.
Qed.

Lemma nonempty_str_take n s : nonempty (str_take (S n) s) = nonempty s.
Proof. by destruct s. Qed.

Lemma nonempty_replace_char a b s : nonempty (replace_char a b s) = nonempty s.
Proof. by destruct s. Qed.

End LoggerFacts.

Module LoggerExtras.
Import Stdlib.Strings.Ascii Logger LoggerFacts.

(** X27.  The name of the log file never holds a [/], provided the
    serial number read from sysfs holds none: slashes of the product
    string and of the tty name are replaced by underscores, the serial
    number is used as it is. *)
Theorem device_name_has_no_slash
    (device_info : option (gmap string string)) (device_name : string) :
  (forall info, device_info = Some info ->
     has_char "/"%char (dict_get info "serial") = false) ->
  has_char "/"%char (logger_device_name device_info device_name) = false.
Proof.
  intros Hserial.
  assert (Hfb : has_char "/"%char (fallback_name device_name) = false).
  { unfold fallback_name. apply has_char_remove_dev.
    by apply has_char_replace_char. }
  destruct device_info as [info|]; [|exact Hfb].
  specialize (Hserial info eq_refl). unfold logger_device_name.
  case_bool_decide; [exact Hfb|].
  assert (Hp : has_char "/"%char
    (str_take 20 (replace_char "/"%char "_"%char
                    (replace_char " "%char "_"%char (dict_get info "product")))) = false).
  { apply has_char_str_take. by apply has_char_replace_char. }
  assert (Hs : has_char "/"%char (str_take 10 (dict_get info "serial")) = false).
  { by apply has_char_str_take. }
  cbn zeta. repeat case_match; try done.
  rewrite !has_char_app, Hp, Hs. reflexivity.
Qed.

Lemma device_name_has_no_slash_witness :
  has_char "/"%char
    (logger_device_name
       (Some (<["product" := "CP2102 USB/UART Bridge"]> {["serial" := "0001"]}))%string
       "ttyUSB0") = false.
Proof.
  apply (device_name_has_no_slash
           (Some (<["product" := "CP2102 USB/UART Bridge"]> {["serial" := "0001"]}))%string
           "ttyUSB0").
  intros info [= <-]. reflexivity.
Defined.

(** X28.  When sysfs gives a product or a serial number, the name is
    built from them alone: it does not depend on the tty name, and it
    is at most 31 characters long (20 of the product, an underscore, 10
    of the serial number). *)
Theorem device_name_from_sysfs
    (info : gmap string string) (device_name device_name' : string) :
  nonempty (dict_get info "product") || nonempty (dict_get info "serial") = true ->
  logger_device_name (Some info) device_name
    = logger_device_name (Some info) device_name' /\
  (String.length (logger_device_name (Some info) device_name) <= 31)%nat.
Proof.
  intros Hne. unfold logger_device_name.
  assert (Hinfo : info <> ∅).
  { intros ->. unfold dict_get in Hne. by rewrite !lookup_empty in Hne. }
  rewrite bool_decide_eq_false_2 by done. cbn zeta.
  set (product := str_take 20 (replace_char "/"%char "_"%char
                    (replace_char " "%char "_"%char (dict_get info "product")))).
  set (serial := str_take 10 (dict_get info "serial")).
  assert (Np : nonempty product = nonempty (dict_get info "product")).
  { unfold product. by rewrite nonempty_str_take, !nonempty_replace_char. }
  assert (Ns : nonempty serial = nonempty (dict_get info "serial")).
  { unfold serial. by rewrite nonempty_str_take. }
  pose proof (length_str_take 20 (replace_char "/"%char "_"%char
               (replace_char " "%char "_"%char (dict_get info "product")))) as Lp.
  pose proof (length_str_take 10 (dict_get info "serial")) as Ls.
  fold product in Lp. fold serial in Ls.
  rewrite <- Np, <- Ns in Hne.
  destruct (nonempty product), (nonempty serial); cbn [andb orb] in *; try done.
  - split; [done|]. rewrite !length_app_str. cbn [String.length]. lia.
  - split; [done|lia].
  - split; [done|lia].
Qed.

Lemma device_name_from_sysfs_witness :
  logger_device_name (Some {["product" := "FT232R USB UART"]})%string "ttyUSB0"
    = logger_device_name (Some {["product" := "FT232R USB UART"]})%string "ttyACM3" /\
  (String.length (logger_device_name (Some {["product" := "FT232R USB UART"]})%string
                    "ttyUSB0") <= 31)%nat.
Proof.
  apply (device_name_from_sysfs {["product" := "FT232R USB UART"]}%string
           "ttyUSB0" "ttyACM3").
  reflexivity.
Defined.

End LoggerExtras.
